(** * iboss-agency-scraper: the persistent store and the scraping traversal

    A shallow embedding of [src/scraper/iboss_scraper.py].

    - [Database]: the three SQLite tables as lists of rows in rowid order,
      and the methods of class [Database] as functions on that state.
    - [IBossScraper]: the methods of class [IBossScraper] as state-passing
      functions.  What the browser shows (the DOM of the pages) is input
      data: every Playwright call is answered from a description of the
      page, and may raise.

    Python [str] values are sequences of Unicode code points.  The
    statements sent to SQLite do not fail, and [print] is silent. *)

From Stdlib Require Import List ZArith NArith String Ascii Bool Lia Arith.
Import ListNotations.

Local Open Scope Z_scope.

(* ------------------------------------------------------------------ *)
(** ** Python strings *)

Definition pystr := list N.

(** An ASCII literal of the source as a [pystr]. *)
Definition lit (s : string) : pystr :=
  map N_of_ascii (list_ascii_of_string s).

Fixpoint pystr_eqb (a b : pystr) : bool :=
  match a, b with
  | [], [] => true
  | x :: a', y :: b' => N.eqb x y && pystr_eqb a' b'
  | _, _ => false
  end.

(** Truth value of an optional string: [None] and [""] are falsy. *)
Definition truthy (s : option pystr) : bool :=
  match s with
  | Some (_ :: _) => true
  | _ => false
  end.

(** [s.startswith(p)] *)
Fixpoint startswith (p s : pystr) : bool :=
  match p, s with
  | [], _ => true
  | x :: p', y :: s' => N.eqb x y && startswith p' s'
  | _ :: _, [] => false
  end.

(** [str.isspace] on one code point; the class [\s] of [re] on [str]
    patterns is the same set. *)
Definition isspace (c : N) : bool :=
  ((9 <=? c) && (c <=? 13) || (28 <=? c) && (c <=? 32)
   || (c =? 133) || (c =? 160) || (c =? 5760)
   || (8192 <=? c) && (c <=? 8202)
   || (c =? 8232) || (c =? 8233) || (c =? 8239) || (c =? 8287)
   || (c =? 12288))%N.

Fixpoint lstrip (s : pystr) : pystr :=
  match s with
  | c :: s' => if isspace c then lstrip s' else s
  | [] => []
  end.

(** [s.strip()] *)
Definition strip (s : pystr) : pystr := rev (lstrip (rev (lstrip s))).

(** A moment of the wall clock, as [CURRENT_TIMESTAMP] reads it. *)
Definition timestamp := N.

(* ------------------------------------------------------------------ *)
(** ** class Database *)

Module Database.

(** Table [categories].  [c_agency_count] holds the value bound to the
    INTEGER column, which the scraper passes as text. *)
Record category_row := mk_category {
  c_id : Z;
  c_category_name : pystr;
  c_category_link : pystr;
  c_agency_count : pystr;
  c_scraped : bool;
  c_last_updated : timestamp
}.

(** Table [agencies]. *)
Record agency_row := mk_agency {
  a_id : Z;
  a_category_id : Z;
  a_category_name : pystr;
  a_agency_name : pystr;
  a_agency_url : option pystr;
  a_agency_logo : option pystr;
  a_local_logo_path : option pystr;
  a_agency_desc : option pystr;
  a_agency_idx : option pystr;
  a_agency_detail_url : option pystr;
  a_agency_detail_desc : option pystr;
  a_detailed_scraped : bool;
  a_last_updated : timestamp
}.

(** Table [scraping_status]. *)
Record status_row := mk_status {
  s_id : Z;
  s_session_start : option timestamp;
  s_session_end : option timestamp;
  s_categories_total : Z;
  s_categories_scraped : Z;
  s_agencies_total : Z;
  s_agencies_scraped : Z;
  s_details_total : Z;
  s_details_scraped : Z;
  s_status : option pystr
}.

(** The database file: the rows of each table in rowid order and, per
    table, the largest rowid handed out so far (AUTOINCREMENT). *)
Record t := mk_db {
  categories : list category_row;
  agencies : list agency_row;
  scraping_status : list status_row;
  seq_categories : Z;
  seq_agencies : Z;
  seq_scraping_status : Z
}.

(** The file right after [_create_tables] on a fresh path. *)
Definition empty : t := mk_db [] [] [] 0 0 0.

Definition set_categories (db : t) (l : list category_row) (n : Z) : t :=
  mk_db l (agencies db) (scraping_status db)
        n (seq_agencies db) (seq_scraping_status db).

Definition set_agencies (db : t) (l : list agency_row) (n : Z) : t :=
  mk_db (categories db) l (scraping_status db)
        (seq_categories db) n (seq_scraping_status db).

Definition set_scraping_status (db : t) (l : list status_row) (n : Z) : t :=
  mk_db (categories db) (agencies db) l
        (seq_categories db) (seq_agencies db) n.

(** [UPDATE categories SET category_link, agency_count, last_updated] *)
Definition relink (now : timestamp) (link count : pystr)
           (r : category_row) : category_row :=
  mk_category (c_id r) (c_category_name r) link count (c_scraped r) now.

Definition insert_category (db : t) (now : timestamp)
           (category_name category_link agency_count : pystr) : t * Z :=
  match find (fun r => pystr_eqb (c_category_name r) category_name)
             (categories db) with
  | Some existing =>
      (set_categories db
         (map (fun r => if c_id r =? c_id existing
                        then relink now category_link agency_count r
                        else r)
              (categories db))
         (seq_categories db),
       c_id existing)
  | None =>
      let category_id := seq_categories db + 1 in
      (set_categories db
         (categories db ++
            [mk_category category_id category_name category_link
                         agency_count false now])
         category_id,
       category_id)
  end.

(** [UPDATE agencies SET agency_url, agency_logo, local_logo_path,
    agency_desc, agency_idx, agency_detail_url, last_updated] *)
Definition refresh (now : timestamp)
           (agency_url agency_logo local_logo_path agency_desc
            agency_idx agency_detail_url : option pystr)
           (r : agency_row) : agency_row :=
  mk_agency (a_id r) (a_category_id r) (a_category_name r)
            (a_agency_name r) agency_url agency_logo local_logo_path
            agency_desc agency_idx agency_detail_url
            (a_agency_detail_desc r) (a_detailed_scraped r) now.

Definition insert_agency (db : t) (now : timestamp)
           (category_id : Z) (category_name agency_name : pystr)
           (agency_url agency_logo agency_desc agency_idx
            agency_detail_url local_logo_path : option pystr) : t * Z :=
  match find (fun r => (a_category_id r =? category_id)
                       && pystr_eqb (a_agency_name r) agency_name)
             (agencies db) with
  | Some existing =>
      (set_agencies db
         (map (fun r => if a_id r =? a_id existing
                        then refresh now agency_url agency_logo
                                     local_logo_path agency_desc
                                     agency_idx agency_detail_url r
                        else r)
              (agencies db))
         (seq_agencies db),
       a_id existing)
  | None =>
      let agency_id := seq_agencies db + 1 in
      (set_agencies db
         (agencies db ++
            [mk_agency agency_id category_id category_name agency_name
                       agency_url agency_logo local_logo_path
                       agency_desc agency_idx agency_detail_url
                       None false now])
         agency_id,
       agency_id)
  end.

(** [UPDATE agencies SET agency_detail_desc = ?, detailed_scraped = 1] *)
Definition detail (now : timestamp) (detail_desc : option pystr)
           (r : agency_row) : agency_row :=
  mk_agency (a_id r) (a_category_id r) (a_category_name r)
            (a_agency_name r) (a_agency_url r) (a_agency_logo r)
            (a_local_logo_path r) (a_agency_desc r) (a_agency_idx r)
            (a_agency_detail_url r) detail_desc true now.

Definition update_agency_detail (db : t) (now : timestamp)
           (agency_id : Z) (detail_desc : option pystr) : t :=
  set_agencies db
    (map (fun r => if a_id r =? agency_id then detail now detail_desc r
                   else r)
         (agencies db))
    (seq_agencies db).

(** The columns [id, agency_name, agency_idx, agency_detail_url]. *)
Definition pending_columns (r : agency_row)
  : Z * pystr * option pystr * option pystr :=
  (a_id r, a_agency_name r, a_agency_idx r, a_agency_detail_url r).

Definition get_agencies_without_details (db : t)
  : list (Z * pystr * option pystr * option pystr) :=
  map pending_columns
      (filter (fun r => negb (a_detailed_scraped r)) (agencies db)).

Definition mark (now : timestamp) (r : category_row) : category_row :=
  mk_category (c_id r) (c_category_name r) (c_category_link r)
              (c_agency_count r) true now.

Definition mark_category_scraped (db : t) (now : timestamp)
           (category_id : Z) : t :=
  set_categories db
    (map (fun r => if c_id r =? category_id then mark now r else r)
         (categories db))
    (seq_categories db).

(** The columns [id, category_name, category_link, agency_count]. *)
Definition get_unscraped_categories (db : t)
  : list (Z * pystr * pystr * pystr) :=
  map (fun r => (c_id r, c_category_name r, c_category_link r,
                 c_agency_count r))
      (filter (fun r => negb (c_scraped r)) (categories db)).

Definition start_scraping_session (db : t) (now : timestamp) : t * Z :=
  let session_id := seq_scraping_status db + 1 in
  (set_scraping_status db
     (scraping_status db ++
        [mk_status session_id (Some now) None 0 0 0 0 0 0
                   (Some (lit "running"))])
     session_id,
   session_id).

(** One entry of [update_fields], with its bound value. *)
Inductive assignment :=
| Categories_total (v : Z)
| Categories_scraped (v : Z)
| Agencies_total (v : Z)
| Agencies_scraped (v : Z)
| Details_total (v : Z)
| Details_scraped (v : Z)
| Status (v : pystr)
| Session_end_now.

(** The keyword arguments of [update_scraping_status]. *)
Record status_args := mk_args {
  categories_total : option Z;
  categories_scraped : option Z;
  agencies_total : option Z;
  agencies_scraped : option Z;
  details_total : option Z;
  details_scraped : option Z;
  status : option pystr
}.

Definition no_args : status_args :=
  mk_args None None None None None None None.

Definition opt_field {A} (f : A -> assignment) (o : option A)
  : list assignment :=
  match o with Some v => [f v] | None => [] end.

Definition is_completed (o : option pystr) : bool :=
  match o with
  | Some s => pystr_eqb s (lit "completed")
  | None => false
  end.

(** The list [update_fields] as the method builds it. *)
Definition update_fields (a : status_args) : list assignment :=
  opt_field Categories_total (categories_total a)
  ++ opt_field Categories_scraped (categories_scraped a)
  ++ opt_field Agencies_total (agencies_total a)
  ++ opt_field Agencies_scraped (agencies_scraped a)
  ++ opt_field Details_total (details_total a)
  ++ opt_field Details_scraped (details_scraped a)
  ++ opt_field Status (status a)
  ++ (if is_completed (status a) then [Session_end_now] else []).

Definition assign (now : timestamp) (r : status_row) (f : assignment)
  : status_row :=
  match f with
  | Categories_total v =>
      mk_status (s_id r) (s_session_start r) (s_session_end r)
                v (s_categories_scraped r) (s_agencies_total r)
                (s_agencies_scraped r) (s_details_total r)
                (s_details_scraped r) (s_status r)
  | Categories_scraped v =>
      mk_status (s_id r) (s_session_start r) (s_session_end r)
                (s_categories_total r) v (s_agencies_total r)
                (s_agencies_scraped r) (s_details_total r)
                (s_details_scraped r) (s_status r)
  | Agencies_total v =>
      mk_status (s_id r) (s_session_start r) (s_session_end r)
                (s_categories_total r) (s_categories_scraped r) v
                (s_agencies_scraped r) (s_details_total r)
                (s_details_scraped r) (s_status r)
  | Agencies_scraped v =>
      mk_status (s_id r) (s_session_start r) (s_session_end r)
                (s_categories_total r) (s_categories_scraped r)
                (s_agencies_total r) v (s_details_total r)
                (s_details_scraped r) (s_status r)
  | Details_total v =>
      mk_status (s_id r) (s_session_start r) (s_session_end r)
                (s_categories_total r) (s_categories_scraped r)
                (s_agencies_total r) (s_agencies_scraped r) v
                (s_details_scraped r) (s_status r)
  | Details_scraped v =>
      mk_status (s_id r) (s_session_start r) (s_session_end r)
                (s_categories_total r) (s_categories_scraped r)
                (s_agencies_total r) (s_agencies_scraped r)
                (s_details_total r) v (s_status r)
  | Status v =>
      mk_status (s_id r) (s_session_start r) (s_session_end r)
                (s_categories_total r) (s_categories_scraped r)
                (s_agencies_total r) (s_agencies_scraped r)
                (s_details_total r) (s_details_scraped r) (Some v)
  | Session_end_now =>
      mk_status (s_id r) (s_session_start r) (Some now)
                (s_categories_total r) (s_categories_scraped r)
                (s_agencies_total r) (s_agencies_scraped r)
                (s_details_total r) (s_details_scraped r) (s_status r)
  end.

(** [UPDATE scraping_status SET <update_fields> WHERE id = ?]; nothing
    is executed when [update_fields] is empty. *)
Definition update_scraping_status (db : t) (now : timestamp)
           (session_id : Z) (a : status_args) : t :=
  match update_fields a with
  | [] => db
  | fields =>
      set_scraping_status db
        (map (fun r => if s_id r =? session_id
                       then fold_left (assign now) fields r
                       else r)
             (scraping_status db))
        (seq_scraping_status db)
  end.

(** [SELECT id, agency_name, agency_idx, agency_detail_url FROM agencies
    WHERE id = ?], first row. *)
Definition get_agency_by_id (db : t) (agency_id : Z)
  : option (Z * pystr * option pystr * option pystr) :=
  option_map pending_columns
             (find (fun r => a_id r =? agency_id) (agencies db)).

(** The columns [id, category_name, category_link, agency_count,
    scraped] of every category. *)
Definition get_categories (db : t) : list (Z * pystr * pystr * pystr * bool) :=
  map (fun r => (c_id r, c_category_name r, c_category_link r,
                 c_agency_count r, c_scraped r))
      (categories db).

(** The columns [agency_name, agency_url, agency_logo, agency_desc,
    agency_detail_desc]. *)
Definition listed_columns (r : agency_row)
  : pystr * option pystr * option pystr * option pystr * option pystr :=
  (a_agency_name r, a_agency_url r, a_agency_logo r, a_agency_desc r,
   a_agency_detail_desc r).

Definition get_agencies_by_category (db : t) (category_id : Z)
  : list (pystr * option pystr * option pystr * option pystr * option pystr) :=
  map listed_columns
      (filter (fun r => a_category_id r =? category_id) (agencies db)).

Definition get_all_agencies (db : t)
  : list (pystr * (pystr * option pystr * option pystr * option pystr
                   * option pystr)) :=
  map (fun r => (a_category_name r, listed_columns r)) (agencies db).

Definition count_agencies (db : t) : Z :=
  Z.of_nat (List.length (agencies db)).

Definition count_agencies_with_details (db : t) : Z :=
  Z.of_nat (List.length (filter a_detailed_scraped (agencies db))).

End Database.

(* ------------------------------------------------------------------ *)
(** ** Exceptions and the browser *)

(** The outcome of a call that may raise. *)
Inductive res (A : Type) : Type :=
| Ok (a : A)
| Raise.
Arguments Ok {A} a.
Arguments Raise {A}.

Definition bind {A B : Type} (m : res A) (k : A -> res B) : res B :=
  match m with
  | Ok a => k a
  | Raise => Raise
  end.

Notation "x <- m ;; k" := (bind m (fun x => k))
  (at level 61, m at next level, right associativity).

(** An element handle, described by what its methods answer.  The same
    call on the same handle answers the same. *)
Record element := mk_element {
  inner_text : res pystr;
  get_attribute : pystr -> res (option pystr);
  (** [evaluate("node => node.closest('a') ? ...getAttribute('href') : null")] *)
  closest_href : res (option pystr)
}.

(** One child of the agency list of a listing page. *)
Record agency_element := mk_agency_element {
  inner_html : res pystr;
  query_selector : pystr -> res (option element)
}.

(** [a or b] on element handles: a handle is truthy, [None] is not. *)
Definition or_else (a b : res (option element)) : res (option element) :=
  x <- a ;;
  match x with
  | Some _ => Ok x
  | None => b
  end.

Infix "|||" := or_else (at level 50, left associativity).

(** What the browser shows for a category: the page reached first and,
    from each page, the page that activating the next-page control
    leads to.  The page-advance block of [get_agencies_in_category] is
    taken by its three exits: [Stop] (every path that sets
    [has_next_page = False]: no pagination control, no links, no next
    element, a disabled one), [Fault] (the [except] of that block) and
    [Click] (the control is activated and the page settles).  A listing
    is finite: a site whose next-page control never ends is not
    described. *)
Inductive listing :=
| Page (primary alternate : res (list agency_element)) (next : paging)
with paging :=
| Stop
| Fault
| Click (l : listing).

(** An agency detail page. *)
Record detail_page := mk_detail_page {
  (** what [navigate_to_url(url, retries=2)] returns *)
  navigated : bool;
  (** [wait_for_selector(selector, timeout=3000)]; [None] when it times
      out (or returns no handle) *)
  wait_for_selector : pystr -> option element;
  screenshot : res unit;
  (** [document.body.textContent], in UTF-16 code units *)
  text_content : res (option pystr)
}.

(** The site during one run. *)
Record site := mk_site {
  (** the category anchors of the directory page; [Raise] when waiting
      for them or querying them raises *)
  main_page : res (list element);
  listing_of : pystr -> listing;
  detail_of : pystr -> detail_page
}.

(** What lies outside the program. *)
Record world := mk_world {
  (** the reading of [CURRENT_TIMESTAMP] at the k-th statement *)
  clock : nat -> timestamp;
  (** the class [\d] of [re] *)
  is_digit : N -> bool;
  (** the builtin [int] on a [str]; [None] for [ValueError] *)
  py_int : pystr -> option Z;
  (** the body of [download_logo] past its first guard (file system and
      network): the local path, or [None] *)
  fetch_logo : pystr -> pystr -> pystr -> option pystr;
  (** [export_to_csv] (file system): what it returns, or [Raise] when
      creating the export directory raises; it only reads the store *)
  export_to_csv : res bool
}.

(** What the scraper does to the outside, in order. *)
Inductive event :=
| Goto (url : pystr)
| ClickNext
| Upsert (category_id : Z) (agency_name : pystr).

(** [s.split(sep)] for a one-character separator. *)
Fixpoint split_on (sep : N) (s : pystr) : list pystr :=
  match s with
  | [] => [[]]
  | c :: s' =>
      if N.eqb c sep then [] :: split_on sep s'
      else match split_on sep s' with
           | p :: ps => (c :: p) :: ps
           | [] => [[c]]
           end
  end.

Fixpoint remove_from (old : pystr) (skip : nat) (s : pystr) : pystr :=
  match s with
  | [] => []
  | c :: s' =>
      match skip with
      | S k => remove_from old k s'
      | O => if startswith old s
             then remove_from old (List.length old - 1) s'
             else c :: remove_from old O s'
      end
  end.

(** [s.replace(old, '')] *)
Definition remove_all (old s : pystr) : pystr :=
  match old with
  | [] => s
  | _ => remove_from old O s
  end.

Fixpoint collapse (in_space : bool) (s : pystr) : pystr :=
  match s with
  | [] => []
  | c :: s' =>
      if isspace c
      then (if in_space then collapse true s' else 32%N :: collapse true s')
      else c :: collapse false s'
  end.

(** [re.sub(r'\s+', ' ', s)] *)
Definition sub_spaces (s : pystr) : pystr := collapse false s.

(** The text ["개의 대행사"]. *)
Definition agencies_suffix : pystr :=
  [44060; 51032; 32; 45824; 54665; 49324]%N.

Definition NA : pystr := lit "N/A".

(* ------------------------------------------------------------------ *)
(** ** class IBossScraper *)

Module IBossScraper.

Definition base_url : pystr := lit "https://www.i-boss.co.kr".

(** The constructor's arguments the traversal reads. *)
Record config := mk_config {
  target_categories : option (list pystr);
  max_agencies_per_category : Z;
  skip_details : bool
}.

(** The attributes that change during a run, the database file, the
    number of statements executed so far and the record of what was
    done to the outside. *)
Record t := mk {
  db : Database.t;
  session_id : Z;
  categories_total : Z;
  categories_scraped : Z;
  agencies_total : Z;
  agencies_scraped : Z;
  details_total : Z;
  details_scraped : Z;
  tick : nat;
  trace : list event
}.

Definition now (W : world) (s : t) : timestamp := clock W (tick s).

(** The database after one more statement. *)
Definition put_db (s : t) (d : Database.t) : t :=
  mk d (session_id s) (categories_total s) (categories_scraped s)
     (agencies_total s) (agencies_scraped s) (details_total s)
     (details_scraped s) (S (tick s)) (trace s).

Definition log (s : t) (e : event) : t :=
  mk (db s) (session_id s) (categories_total s) (categories_scraped s)
     (agencies_total s) (agencies_scraped s) (details_total s)
     (details_scraped s) (tick s) (trace s ++ [e]).

Definition set_categories_total (s : t) (v : Z) : t :=
  mk (db s) (session_id s) v (categories_scraped s)
     (agencies_total s) (agencies_scraped s) (details_total s)
     (details_scraped s) (tick s) (trace s).

Definition set_categories_scraped (s : t) (v : Z) : t :=
  mk (db s) (session_id s) (categories_total s) v
     (agencies_total s) (agencies_scraped s) (details_total s)
     (details_scraped s) (tick s) (trace s).

Definition set_agencies_total (s : t) (v : Z) : t :=
  mk (db s) (session_id s) (categories_total s) (categories_scraped s)
     v (agencies_scraped s) (details_total s)
     (details_scraped s) (tick s) (trace s).

Definition set_agencies_scraped (s : t) (v : Z) : t :=
  mk (db s) (session_id s) (categories_total s) (categories_scraped s)
     (agencies_total s) v (details_total s)
     (details_scraped s) (tick s) (trace s).

Definition set_details_total (s : t) (v : Z) : t :=
  mk (db s) (session_id s) (categories_total s) (categories_scraped s)
     (agencies_total s) (agencies_scraped s) v
     (details_scraped s) (tick s) (trace s).

Definition set_details_scraped (s : t) (v : Z) : t :=
  mk (db s) (session_id s) (categories_total s) (categories_scraped s)
     (agencies_total s) (agencies_scraped s) (details_total s)
     v (tick s) (trace s).

(** [self.db.update_scraping_status(self.session_id, ...)] *)
Definition update_status (W : world) (s : t) (a : Database.status_args)
  : t :=
  put_db s (Database.update_scraping_status (db s) (now W s)
                                             (session_id s) a).

(** [__init__]: opens the file and records the start of a session. *)
Definition init (W : world) (d : Database.t) : t :=
  let '(d', sid) := Database.start_scraping_session d (clock W 0) in
  mk d' sid 0 0 0 0 0 0 1 [].

Definition absolute (url : pystr) : pystr :=
  if startswith (lit "http://") url || startswith (lit "https://") url
  then url
  else base_url ++ url.

(** [navigate_to_url]: one [Goto] for the call, however many attempts
    it takes; what it returns is part of the page's description. *)
Definition navigate_to_url (s : t) (url : pystr) : t :=
  log s (Goto (absolute url)).

(** One dict of [categories_data]. *)
Record category_data := mk_category_data {
  cd_id : Z;
  cd_category_name : pystr;
  cd_category_link : pystr;
  cd_agency_count : pystr
}.

(** The body of the [try] of [get_categories]'s loop, up to the
    database call: name, absolute link and count of one anchor. *)
Definition category_of (e : element) : res (pystr * pystr * pystr) :=
  element_text <- inner_text e ;;
  let text_parts := split_on 10 element_text in
  let category_name := nth 0 text_parts [] in
  let agency_count :=
    match text_parts with
    | _ :: p :: _ => strip (remove_all agencies_suffix p)
    | _ => lit "0"
    end in
  href <- get_attribute e (lit "href") ;;
  match href with
  | None => Raise
  | Some category_link =>
      Ok (category_name, absolute category_link, agency_count)
  end.

Fixpoint for_categories (W : world) (elements : list element) (s : t)
         (categories_data : list category_data)
  : t * list category_data :=
  match elements with
  | [] => (s, categories_data)
  | e :: rest =>
      match category_of e with
      | Ok (name, link, count) =>
          let '(d, category_id) :=
            Database.insert_category (db s) (now W s) name link count in
          for_categories W rest (put_db s d)
            (categories_data ++ [mk_category_data category_id name link count])
      | Raise => for_categories W rest s categories_data
      end
  end.

Definition get_categories (W : world) (S : site) (s : t)
  : t * list category_data :=
  let s := navigate_to_url s (base_url ++ lit "/ab-7553") in
  match main_page S with
  | Raise => (s, [])
  | Ok category_elements =>
      let s := set_categories_total s
                 (Z.of_nat (List.length category_elements)) in
      let s := update_status W s
                 (Database.mk_args (Some (categories_total s)) None None
                                   None None None None) in
      for_categories W category_elements s []
  end.

Fixpoint digits (W : world) (s : pystr) : pystr :=
  match s with
  | c :: s' => if is_digit W c then c :: digits W s' else []
  | [] => []
  end.

(** [re.search(r'idx=(\d+)', s)] and [group(1)] of the match. *)
Fixpoint search_idx (W : world) (s : pystr) : option pystr :=
  match s with
  | [] => None
  | _ :: s' =>
      if startswith (lit "idx=") s
      then match digits W (skipn 4 s) with
           | [] => search_idx W s'
           | ds => Some ds
           end
      else search_idx W s'
  end.

Definition extract_agency_idx (W : world) (href : option pystr)
  : option pystr :=
  if truthy href
  then match href with
       | Some h => search_idx W h
       | None => None
       end
  else None.

Definition download_logo (W : world) (logo_url : option pystr)
           (category_name agency_name : pystr) : option pystr :=
  match logo_url with
  | Some ((_ :: _) as url) =>
      if pystr_eqb url NA then None
      else fetch_logo W url category_name agency_name
  | _ => None
  end.

(** What is read off one listing entry. *)
Record extracted := mk_extracted {
  x_agency_name : pystr;
  x_agency_url : option pystr;
  x_agency_logo : option pystr;
  x_local_logo_path : option pystr;
  x_agency_desc : option pystr;
  x_agency_idx : option pystr;
  x_agency_detail_url : option pystr
}.

Definition name_elem (agency : agency_element) : res (option element) :=
  x <- (query_selector agency (lit "a.link_tit > span.AB-LF-common")
        ||| query_selector agency (lit "a > span[class*='AB-']")) ;;
  match x with
  | Some _ => Ok x
  | None => query_selector agency (lit "a[class*='link_'] > span")
            ||| query_selector agency (lit "a > span")
  end.

(** The [href] found for the entry; every fault on the way is caught. *)
Definition link_href (agency : agency_element) (agency_name_elem : element)
  : option pystr :=
  match query_selector agency (lit "a.link_tit")
        ||| query_selector agency (lit "a[href*='idx=']") with
  | Raise => None
  | Ok None =>
      match closest_href agency_name_elem with
      | Ok link_js => if truthy link_js then link_js else None
      | Raise => None
      end
  | Ok (Some link_elem) =>
      match get_attribute link_elem (lit "href") with
      | Ok href => href
      | Raise => None
      end
  end.

Definition url_elem (agency : agency_element) : res (option element) :=
  x <- (query_selector agency (lit "div.url > a.link_tit")
        ||| query_selector agency (lit "div.url > a")) ;;
  match x with
  | Some _ => Ok x
  | None => query_selector agency (lit "div[class*='url'] > a")
            ||| query_selector agency (lit "a[class*='link_url']")
  end.

Definition logo_elem (agency : agency_element) : res (option element) :=
  x <- (query_selector agency (lit "div.logo_thumb > a > img")
        ||| query_selector agency (lit "div[class*='logo'] > a > img")) ;;
  match x with
  | Some _ => Ok x
  | None => query_selector agency (lit "div[class*='logo'] img")
            ||| query_selector agency (lit "img[class*='logo']")
            ||| query_selector agency (lit "img")
  end.

Definition desc_elem (agency : agency_element) : res (option element) :=
  x <- (query_selector agency (lit "p.desc")
        ||| query_selector agency (lit "p[class*='desc']")) ;;
  match x with
  | Some _ => Ok x
  | None => query_selector agency (lit "p")
            ||| query_selector agency (lit "div[class*='desc']")
  end.

(** [elem.inner_text() if elem else "N/A"] *)
Definition text_or_NA (elem : option element) : res pystr :=
  match elem with
  | Some e => inner_text e
  | None => Ok NA
  end.

Definition logo_src (elem : option element) : option pystr :=
  match elem with
  | Some e => match get_attribute e (lit "src") with
              | Ok src => src
              | Raise => Some NA
              end
  | None => Some NA
  end.

(** [agency_idx] and [agency_detail_url] as derived from the [href]. *)
Definition derive (W : world) (href : option pystr)
  : option pystr * option pystr :=
  let agency_idx :=
    if truthy href then extract_agency_idx W href else None in
  let agency_detail_url :=
    if truthy agency_idx
    then option_map (fun i => base_url ++ lit "/ab-7554-" ++ i) agency_idx
    else None in
  (agency_idx, agency_detail_url).

(** The body of the [try] of the entry loop, from [inner_html] to the
    database call.  [Raise]: the entry's [except] is reached;
    [Ok None]: the [continue] of an entry without a name element. *)
Definition extract (W : world) (category_name : pystr)
           (agency : agency_element) : res (option extracted) :=
  _ <- inner_html agency ;;
  agency_name_elem <- name_elem agency ;;
  match agency_name_elem with
  | None => Ok None
  | Some name_e =>
      agency_name <- inner_text name_e ;;
      let href := link_href agency name_e in
      let '(agency_idx, agency_detail_url) := derive W href in
      agency_url_elem <- url_elem agency ;;
      agency_url <- text_or_NA agency_url_elem ;;
      logo_e <- logo_elem agency ;;
      let logo_url := logo_src logo_e in
      let local_logo_path :=
        match logo_url with
        | Some ((_ :: _) as u) =>
            if negb (pystr_eqb u NA)
            then download_logo W logo_url category_name agency_name
            else None
        | _ => None
        end in
      desc_e <- desc_elem agency ;;
      description <- text_or_NA desc_e ;;
      Ok (Some (mk_extracted agency_name (Some agency_url) logo_url
                             local_logo_path (Some description)
                             agency_idx agency_detail_url))
  end.

(** [self.max_agencies_per_category > 0 and
    agencies_collected >= self.max_agencies_per_category] *)
Definition cap_reached (C : config) (agencies_collected : Z) : bool :=
  (0 <? max_agencies_per_category C)
  && (max_agencies_per_category C <=? agencies_collected).

(** The database call and the bookkeeping that follows it. *)
Definition persist (W : world) (category_id : Z) (category_name : pystr)
           (x : extracted) (s : t) : t * Z :=
  let '(d, agency_id) :=
    Database.insert_agency (db s) (now W s) category_id category_name
      (x_agency_name x) (x_agency_url x) (x_agency_logo x)
      (x_agency_desc x) (x_agency_idx x) (x_agency_detail_url x)
      (x_local_logo_path x) in
  let s := log (put_db s d) (Upsert category_id (x_agency_name x)) in
  let s := set_agencies_scraped s (agencies_scraped s + 1) in
  let s := update_status W s
             (Database.mk_args None None None (Some (agencies_scraped s))
                               None None None) in
  (s, agency_id).

(** The [for] loop over the entries of one page.  Its [break] also
    clears [has_next_page], which is not returned: the test after the
    loop is the same test on the same count. *)
Fixpoint for_agencies (W : world) (C : config) (category_id : Z)
         (category_name : pystr) (agency_elements : list agency_element)
         (s : t) (agencies_collected : Z)
         (agencies_data : list (Z * extracted))
  : t * Z * list (Z * extracted) :=
  match agency_elements with
  | [] => (s, agencies_collected, agencies_data)
  | agency :: rest =>
      if cap_reached C agencies_collected
      then (s, agencies_collected, agencies_data)
      else
        match extract W category_name agency with
        | Ok (Some x) =>
            let '(s', agency_id) := persist W category_id category_name x s in
            for_agencies W C category_id category_name rest s'
              (agencies_collected + 1) (agencies_data ++ [(agency_id, x)])
        | _ =>
            for_agencies W C category_id category_name rest s
              agencies_collected agencies_data
        end
  end.

(** The entries of a page: the primary selector's, or the alternate
    one's when the primary finds none; then the first entry's HTML is
    read for the debug print. *)
Definition elements_of (primary alternate : res (list agency_element))
  : res (list agency_element) :=
  els <- primary ;;
  els <- match els with
         | [] => alternate
         | _ => Ok els
         end ;;
  match els with
  | first :: _ => _ <- inner_html first ;; Ok els
  | [] => Ok els
  end.

(** The [while has_next_page] loop.  The last component is [false]
    when an exception left the loop for the method's outer handler. *)
Fixpoint while_pages (W : world) (C : config) (category_id : Z)
         (category_name : pystr) (l : listing) (s : t)
         (agencies_collected : Z) (agencies_data : list (Z * extracted))
  : t * list (Z * extracted) * bool :=
  match l with
  | Page primary alternate next =>
      match elements_of primary alternate with
      | Raise => (s, agencies_data, false)
      | Ok agency_elements =>
          let '(s, agencies_collected, agencies_data) :=
            for_agencies W C category_id category_name agency_elements
                         s agencies_collected agencies_data in
          if cap_reached C agencies_collected
          then (s, agencies_data, true)
          else
            match next with
            | Stop => (s, agencies_data, true)
            | Fault => (s, agencies_data, true)
            | Click l' =>
                while_pages W C category_id category_name l'
                            (log s ClickNext)
                            agencies_collected agencies_data
            end
      end
  end.

Definition get_agencies_in_category (W : world) (S : site) (C : config)
           (s : t) (category_id : Z) (category_name category_url : pystr)
  : t * list (Z * extracted) :=
  let s := navigate_to_url s category_url in
  match while_pages W C category_id category_name
                    (listing_of S (absolute category_url)) s 0 [] with
  | (s, agencies_data, true) =>
      let s := put_db s (Database.mark_category_scraped
                           (db s) (now W s) category_id) in
      let s := set_categories_scraped s (categories_scraped s + 1) in
      let s := update_status W s
                 (Database.mk_args None (Some (categories_scraped s)) None
                                   None None None None) in
      (s, agencies_data)
  | (s, _, false) => (s, [])
  end.

(** The selectors of the detail description, in the order tried. *)
Definition detail_selectors : list pystr :=
  [ lit "#_RST_dir > div > div.cont_main > div > div > div:nth-child(2) > div.intro";
    lit "div.intro";
    lit "div[class*='intro']";
    lit "div.cont_main div[class*='intro']";
    lit "div.cont_main p";
    lit "#_RST_dir p" ].

Fixpoint first_found (p : detail_page) (selectors : list pystr)
  : option element :=
  match selectors with
  | [] => None
  | sel :: rest =>
      match wait_for_selector p sel with
      | Some e => Some e
      | None => first_found p rest
      end
  end.

(** The script evaluated in the page:
    [textContent ? textContent.substring(0, 1000) : null]. *)
Definition body_script (textContent : option pystr) : option pystr :=
  if truthy textContent
  then option_map (firstn 1000) textContent
  else None.

(** The description read off a detail page; [Raise] when the inner
    handler is reached, [Ok None] when the page has no text. *)
Definition detail_desc_of (p : detail_page) : res (option pystr) :=
  match first_found p detail_selectors with
  | None =>
      _ <- screenshot p ;;
      textContent <- text_content p ;;
      let body_text := body_script textContent in
      if truthy body_text
      then Ok (option_map (fun b => strip (sub_spaces b)) body_text)
      else Ok None
  | Some intro_elem =>
      d <- inner_text intro_elem ;;
      Ok (Some d)
  end.

Definition get_agency_detail (W : world) (S : site) (s : t)
           (agency_id : Z) (agency_name : pystr)
           (agency_idx agency_detail_url : option pystr)
  : t * option pystr :=
  match agency_detail_url with
  | Some ((_ :: _) as url) =>
      let s := navigate_to_url s url in
      let p := detail_of S (absolute url) in
      if navigated p
      then
        match detail_desc_of p with
        | Ok (Some detail_desc) =>
            let s := put_db s (Database.update_agency_detail
                                 (db s) (now W s) agency_id
                                 (Some detail_desc)) in
            let s := set_details_scraped s (details_scraped s + 1) in
            let s := update_status W s
                       (Database.mk_args None None None None None
                                         (Some (details_scraped s)) None) in
            (s, Some detail_desc)
        | _ => (s, None)
        end
      else (s, None)
  | _ => (s, None)
  end.

Fixpoint for_details (W : world) (S : site)
         (agencies : list (Z * pystr * option pystr * option pystr))
         (s : t) : t :=
  match agencies with
  | [] => s
  | (agency_id, agency_name, agency_idx, agency_detail_url) :: rest =>
      for_details W S rest
        (fst (get_agency_detail W S s agency_id agency_name agency_idx
                                agency_detail_url))
  end.

Definition scrape_all_agency_details (W : world) (S : site) (s : t) : t :=
  match Database.get_agencies_without_details (db s) with
  | [] => s
  | agencies =>
      let s := set_details_total s (Z.of_nat (List.length agencies)) in
      let s := update_status W s
                 (Database.mk_args None None None None
                                   (Some (details_total s)) None None) in
      for_details W S agencies s
  end.

(** [[cat for cat in categories if cat['category_name'] in
    self.target_categories]], applied when the target list is
    neither [None] nor empty. *)
Definition select (C : config) (categories : list category_data)
  : list category_data :=
  match target_categories C with
  | Some ((_ :: _) as targets) =>
      filter (fun cat => existsb (pystr_eqb (cd_category_name cat)) targets)
             categories
  | _ => categories
  end.

(** [sum(int(cat.get('agency_count', 0)) for cat in categories)] *)
Fixpoint sum_counts (W : world) (categories : list category_data)
  : option Z :=
  match categories with
  | [] => Some 0
  | cat :: rest =>
      match py_int W (cd_agency_count cat) with
      | Some n => option_map (Z.add n) (sum_counts W rest)
      | None => None
      end
  end.

Fixpoint for_listings (W : world) (S : site) (C : config)
         (categories : list category_data) (s : t) : t :=
  match categories with
  | [] => s
  | category :: rest =>
      for_listings W S C rest
        (fst (get_agencies_in_category W S C s (cd_id category)
                (cd_category_name category) (cd_category_link category)))
  end.

Definition set_status (W : world) (s : t) (v : string) : t :=
  update_status W s
    (Database.mk_args None None None None None None (Some (lit v))).

(** [scrape_all], up to the release of the browser and of the
    database handle. *)
Definition scrape_all (W : world) (S : site) (C : config) (s : t) : t :=
  let '(s, categories) := get_categories W S s in
  match categories with
  | [] => set_status W s "failed"
  | _ =>
      let categories := select C categories in
      match sum_counts W categories with
      | None => set_status W s "failed"
      | Some total =>
          let s := set_agencies_total s total in
          let s := update_status W s
                     (Database.mk_args None None (Some (agencies_total s))
                                       None None None None) in
          let s := for_listings W S C categories s in
          let s := if skip_details C then s
                   else scrape_all_agency_details W S s in
          match export_to_csv W with
          | Ok _ => set_status W s "completed"
          | Raise => set_status W s "failed"
          end
      end
  end.

(** The loop of [navigate_to_url]: [loads k] tells whether the k-th
    attempt gets through [goto] and [wait_for_load_state]; the URL is
    made absolute inside each attempt.  The answer is [None] when the
    loop ends without a [return], with the URLs requested, in order. *)
Fixpoint attempts (loads : nat -> bool) (retries : Z) (url : pystr)
         (attempt remaining : nat) : option bool * list pystr :=
  match remaining with
  | O => (None, [])
  | S remaining' =>
      let url := absolute url in
      if loads attempt then (Some true, [url])
      else if Z.of_nat attempt =? retries - 1 then (Some false, [url])
      else let '(r, urls) :=
             attempts loads retries url (S attempt) remaining' in
           (r, url :: urls)
  end.

(** [navigate_to_url(url, retries)]: [for attempt in range(retries)]. *)
Definition navigate_to_url_retrying (loads : nat -> bool) (url : pystr)
           (retries : Z) : option bool * list pystr :=
  attempts loads retries url O (Z.to_nat retries).

(** The character class of [download_logo]: backslash, slash, star,
    question mark, colon, double quote, angle brackets and bar. *)
Definition unsafe (c : N) : bool :=
  ((c =? 92) || (c =? 47) || (c =? 42) || (c =? 63) || (c =? 58)
   || (c =? 34) || (c =? 60) || (c =? 62) || (c =? 124))%N.

(** [re.sub] of that class by an underscore. *)
Definition sanitize (name : pystr) : pystr :=
  map (fun c => if unsafe c then 95%N else c) name.

(** [os.path.join(a, b)] of [posixpath]. *)
Definition path_join (a b : pystr) : pystr :=
  if startswith [47%N] b then b
  else match a with
       | [] => b
       | _ => if N.eqb (last a 0%N) 47 then a ++ b else a ++ [47%N] ++ b
       end.

(** [logo_path] of [download_logo]. *)
Definition logo_path (logos_dir category_name agency_name : pystr) : pystr :=
  path_join logos_dir
            (sanitize category_name ++ lit "_" ++ sanitize agency_name
             ++ lit ".png").

(** What writing the response to [logo_path] comes to: written in
    full, [open] raises, or the file is created and a later chunk
    raises. *)
Inductive saving :=
| Saved
| Open_raises
| Write_raises.

(** What [requests.get(logo_url, stream=True, timeout=10)] comes to. *)
Inductive response :=
| Get_raises
| Status_code (code : Z) (saved : saving).

(** [download_logo] on a file system given by the paths that exist and
    a network given by what [requests.get] answers: the files after
    the call, what is returned, and whether a request was sent. *)
Definition download_logo_on (files : list pystr) (get : pystr -> response)
           (logos_dir : pystr) (logo_url : option pystr)
           (category_name agency_name : pystr)
  : list pystr * option pystr * bool :=
  match logo_url with
  | Some ((_ :: _) as url) =>
      if pystr_eqb url NA then (files, None, false)
      else
        let path := logo_path logos_dir category_name agency_name in
        if existsb (pystr_eqb path) files then (files, Some path, false)
        else
          match get url with
          | Get_raises => (files, None, true)
          | Status_code code saved =>
              if code =? 200
              then match saved with
                   | Saved => (path :: files, Some path, true)
                   | Open_raises => (files, None, true)
                   | Write_raises => (path :: files, None, true)
                   end
              else (files, None, true)
          end
  | _ => (files, None, false)
  end.

End IBossScraper.

(* ------------------------------------------------------------------ *)
(** ** Vocabulary of the properties *)

(** The row of a session. *)
Definition session_row (db : Database.t) (session_id : Z)
  : option Database.status_row :=
  find (fun r => Database.s_id r =? session_id) (Database.scraping_status db).

(** The natural keys of the two upserted tables. *)
Definition category_keys (db : Database.t) : list pystr :=
  map Database.c_category_name (Database.categories db).

Definition agency_key (r : Database.agency_row) : Z * pystr :=
  (Database.a_category_id r, Database.a_agency_name r).

Definition agency_keys (db : Database.t) : list (Z * pystr) :=
  map agency_key (Database.agencies db).

(** No natural key occurs on two rows. *)
Definition keyed (db : Database.t) : Prop :=
  NoDup (category_keys db) /\ NoDup (agency_keys db).

(** The rows a lookup by natural key selects. *)
Definition categories_named (name : pystr) (db : Database.t)
  : list Database.category_row :=
  filter (fun r => pystr_eqb (Database.c_category_name r) name)
         (Database.categories db).

Definition agencies_named (category_id : Z) (name : pystr) (db : Database.t)
  : list Database.agency_row :=
  filter (fun r => (Database.a_category_id r =? category_id)
                   && pystr_eqb (Database.a_agency_name r) name)
         (Database.agencies db).

(** The store states the program produces: the methods of [Database]
    that write, with the arguments [IBossScraper] gives them, from the
    freshly created file.  [update_agency_detail] has one caller,
    [get_agency_detail], which passes a string. *)
Inductive reachable : Database.t -> Prop :=
| reach_empty : reachable Database.empty
| reach_insert_category db now name link count :
    reachable db ->
    reachable (fst (Database.insert_category db now name link count))
| reach_insert_agency db now cid cname name url logo desc idx durl path :
    reachable db ->
    reachable (fst (Database.insert_agency db now cid cname name
                                           url logo desc idx durl path))
| reach_update_agency_detail db now agency_id detail_desc :
    reachable db ->
    reachable (Database.update_agency_detail db now agency_id
                                             (Some detail_desc))
| reach_mark_category_scraped db now category_id :
    reachable db ->
    reachable (Database.mark_category_scraped db now category_id)
| reach_start_scraping_session db now :
    reachable db ->
    reachable (fst (Database.start_scraping_session db now))
| reach_update_scraping_status db now session_id a :
    reachable db ->
    reachable (Database.update_scraping_status db now session_id a).

(** Every agency flagged [detailed_scraped] has a detail description. *)
Definition detailed_have_desc (db : Database.t) : Prop :=
  forall r, In r (Database.agencies db) ->
            Database.a_detailed_scraped r = true ->
            Database.a_agency_detail_desc r <> None.

(** The pattern [idx=(\d+)] matches at the start of [s]. *)
Definition idx_at (W : world) (s : pystr) : bool :=
  startswith (lit "idx=") s
  && match IBossScraper.digits W (skipn 4 s) with
     | [] => false
     | _ => true
     end.

(** No element query of the listing raises: no exception leaves the
    page loop, wherever it ends. *)
Fixpoint queries_ok (l : listing) : bool :=
  match l with
  | Page primary alternate next =>
      match IBossScraper.elements_of primary alternate with
      | Raise => false
      | Ok _ => match next with
                | Click l' => queries_ok l'
                | _ => true
                end
      end
  end.

(** The entries of a page that are read off in full. *)
Fixpoint extractable (W : world) (cname : pystr)
         (els : list agency_element) : list IBossScraper.extracted :=
  match els with
  | [] => []
  | e :: rest =>
      match IBossScraper.extract W cname e with
      | Ok (Some x) => x :: extractable W cname rest
      | _ => extractable W cname rest
      end
  end.

(** The entries that can be read off a listing, over the pages that
    following the next-page control reaches. *)
Fixpoint available (W : world) (cname : pystr) (l : listing)
  : list IBossScraper.extracted :=
  match l with
  | Page primary alternate next =>
      match IBossScraper.elements_of primary alternate with
      | Raise => []
      | Ok els =>
          extractable W cname els
          ++ match next with
             | Click l' => available W cname l'
             | _ => []
             end
      end
  end.

(** The entries a listing shows, over the same pages. *)
Fixpoint entries (l : listing) : nat :=
  match l with
  | Page primary alternate next =>
      match IBossScraper.elements_of primary alternate with
      | Raise => O
      | Ok els =>
          (List.length els
           + match next with
             | Click l' => entries l'
             | _ => O
             end)%nat
      end
  end.

(** What an unlimited traversal of a listing does: an upsert per
    extractable entry, a click between pages. *)
Fixpoint script (W : world) (cid : Z) (cname : pystr) (l : listing)
  : list event :=
  match l with
  | Page primary alternate next =>
      match IBossScraper.elements_of primary alternate with
      | Raise => []
      | Ok els =>
          map (fun x => Upsert cid (IBossScraper.x_agency_name x))
              (extractable W cname els)
          ++ match next with
             | Click l' => ClickNext :: script W cid cname l'
             | _ => []
             end
      end
  end.

Definition is_upsert (e : event) : bool :=
  match e with
  | Upsert _ _ => true
  | _ => false
  end.

Definition upserts (evs : list event) : nat :=
  List.length (filter is_upsert evs).

(** The events up to and including the n-th upsert. *)
Fixpoint upto (evs : list event) (n : nat) : list event :=
  match evs with
  | [] => []
  | e :: rest =>
      match n with
      | O => []
      | Datatypes.S m =>
          e :: upto rest (if is_upsert e then m else n)
      end
  end.

(** The upserts left before the cap, [None] when there is no cap. *)
Definition budget (C : IBossScraper.config) (collected : Z) : option nat :=
  if 0 <? IBossScraper.max_agencies_per_category C
  then Some (Z.to_nat (IBossScraper.max_agencies_per_category C - collected))
  else None.

Definition cut (evs : list event) (b : option nat) : list event :=
  match b with
  | Some n => upto evs n
  | None => evs
  end.





(** The ids of the agencies flagged [detailed_scraped]. *)
Definition flagged (db : Database.t) : list Z :=
  map Database.a_id
      (filter Database.a_detailed_scraped (Database.agencies db)).

(** The effect of one [update_scraping_status] on the row it addresses. *)
Definition updated (now : timestamp) (a : Database.status_args)
           (r : Database.status_row) : Database.status_row :=
  fold_left (Database.assign now) (Database.update_fields a) r.

(** An argument of [update_scraping_status] against a column: [None]
    keeps the column, a value replaces it. *)
Definition written {A : Type} (arg : option A) (old new : A) : Prop :=
  match arg with
  | Some v => new = v
  | None => new = old
  end.

(** ** Vocabulary of the further properties *)

(** Distinct ids, none above the last one handed out. *)
Definition fresh_below (ids : list Z) (n : Z) : Prop :=
  NoDup ids /\ Forall (fun i => i <= n) ids.

(** The surrogate ids of the three tables are distinct and within
    their sequences. *)
Definition ids_ok (db : Database.t) : Prop :=
  fresh_below (map Database.c_id (Database.categories db))
              (Database.seq_categories db)
  /\ fresh_below (map Database.a_id (Database.agencies db))
                 (Database.seq_agencies db)
  /\ fresh_below (map Database.s_id (Database.scraping_status db))
                 (Database.seq_scraping_status db).

(** The id of a row of [get_agencies_without_details]. *)
Definition pending_id (c : Z * pystr * option pystr * option pystr) : Z :=
  fst (fst (fst c)).

(** The id of a row of [get_unscraped_categories]. *)
Definition unscraped_id (c : Z * pystr * pystr * pystr) : Z :=
  fst (fst (fst c)).

(** Whether a run ends well: discovery returned categories, the counts
    of the selected ones parse, and the export does not raise. *)
Definition verdict (W : world) (S : site) (C : IBossScraper.config)
           (s : IBossScraper.t) : bool :=
  match snd (IBossScraper.get_categories W S s) with
  | [] => false
  | categories =>
      match IBossScraper.sum_counts W (IBossScraper.select C categories) with
      | None => false
      | Some _ => match export_to_csv W with
                  | Ok _ => true
                  | Raise => false
                  end
      end
  end.

Definition verdict_status (ok : bool) : string :=
  if ok then "completed"%string else "failed"%string.

(** What a later store keeps of a row: its id and natural key, and a
    flag once set. *)
Definition kept_category (r r' : Database.category_row) : Prop :=
  Database.c_id r' = Database.c_id r
  /\ Database.c_category_name r' = Database.c_category_name r
  /\ (Database.c_scraped r = true -> Database.c_scraped r' = true).

Definition kept_agency (r r' : Database.agency_row) : Prop :=
  Database.a_id r' = Database.a_id r
  /\ Database.a_category_id r' = Database.a_category_id r
  /\ Database.a_category_name r' = Database.a_category_name r
  /\ Database.a_agency_name r' = Database.a_agency_name r
  /\ (Database.a_detailed_scraped r = true ->
      Database.a_detailed_scraped r' = true).

Definition kept_session (r r' : Database.status_row) : Prop :=
  Database.s_id r' = Database.s_id r
  /\ Database.s_session_start r' = Database.s_session_start r.

(** The later table holds the rows of the earlier one, in place and
    related by [R], followed by new rows. *)
Definition extended {A : Type} (R : A -> A -> Prop) (l l' : list A) : Prop :=
  exists l1 l2, l' = l1 ++ l2 /\ Forall2 R l l1.

Definition grows (db db' : Database.t) : Prop :=
  extended kept_category (Database.categories db) (Database.categories db')
  /\ extended kept_agency (Database.agencies db) (Database.agencies db')
  /\ extended kept_session (Database.scraping_status db)
              (Database.scraping_status db').

(** The session's row shows the scraper's six counters. *)
Definition mirrored (s : IBossScraper.t) (r : Database.status_row) : Prop :=
  Database.s_categories_total r = IBossScraper.categories_total s
  /\ Database.s_categories_scraped r = IBossScraper.categories_scraped s
  /\ Database.s_agencies_total r = IBossScraper.agencies_total s
  /\ Database.s_agencies_scraped r = IBossScraper.agencies_scraped s
  /\ Database.s_details_total r = IBossScraper.details_total s
  /\ Database.s_details_scraped r = IBossScraper.details_scraped s.

(** The scraper's session has a row, with this start, status and end,
    and the row shows the counters. *)
Definition tracked (s : IBossScraper.t) (start : option timestamp)
           (status : option pystr) (session_end : option timestamp) : Prop :=
  exists r,
    session_row (IBossScraper.db s) (IBossScraper.session_id s) = Some r
    /\ Database.s_session_start r = start
    /\ Database.s_status r = status
    /\ Database.s_session_end r = session_end
    /\ mirrored s r.


(** The two columns of an agency that only [update_agency_detail]
    writes. *)
Definition detail_columns (r : Database.agency_row) : option pystr * bool :=
  (Database.a_agency_detail_desc r, Database.a_detailed_scraped r).

(** The later store has the detail columns of the earlier one, row by
    row, and empty ones in the rows added. *)
Definition details_untouched (db db' : Database.t) : Prop :=
  exists more,
    map detail_columns (Database.agencies db')
    = map detail_columns (Database.agencies db) ++ repeat (None, false) more.

(** The upserts of a trace, in order. *)
Definition saved (s : IBossScraper.t) : list event :=
  filter is_upsert (IBossScraper.trace s).

(** The store holds a category row with the id and the name of this
    dict. *)
Definition on_file (db : Database.t) (cat : IBossScraper.category_data)
  : Prop :=
  exists r,
    In r (Database.categories db)
    /\ Database.c_id r = IBossScraper.cd_id cat
    /\ Database.c_category_name r = IBossScraper.cd_category_name cat.

(** [url.startswith(('http://', 'https://'))] *)
Definition is_absolute (url : pystr) : bool :=
  startswith (lit "http://") url || startswith (lit "https://") url.

(** A logo URL that passes the first guard of [download_logo]. *)
Definition usable (url : pystr) : bool :=
  truthy (Some url) && negb (pystr_eqb url NA).

(** [os.path.exists] on the files of the model. *)
Definition path_exists (files : list pystr) (path : pystr) : bool :=
  existsb (pystr_eqb path) files.

(** The directory part of [os.path.join(logos_dir, name)] for a name
    that does not start with a slash. *)
Definition dir_prefix (logos_dir : pystr) : pystr :=
  match logos_dir with
  | [] => []
  | _ => if N.eqb (last logos_dir 0%N) 47 then logos_dir
         else logos_dir ++ [47%N]
  end.

(** The store holds an agency row with this id, in this category and
    under the name read off the entry. *)
Definition agency_on_file (db : Database.t) (category_id : Z)
           (a : Z * IBossScraper.extracted) : Prop :=
  exists r,
    In r (Database.agencies db)
    /\ Database.a_id r = fst a
    /\ Database.a_category_id r = category_id
    /\ Database.a_agency_name r = IBossScraper.x_agency_name (snd a).

(** What [update_agency_detail] on [agency_id] makes of a row. *)
Definition detailed_as (agency_id : Z) (d : pystr)
           (r r' : Database.agency_row) : Prop :=
  if Database.a_id r =? agency_id
  then Database.a_id r' = agency_id
       /\ Database.a_agency_name r' = Database.a_agency_name r
       /\ Database.a_agency_detail_desc r' = Some d
       /\ Database.a_detailed_scraped r' = true
  else r' = r.

(* ------------------------------------------------------------------ *)
(** ** Sample data *)

Module Sample.

(** A store with one category, already marked scraped, holding one
    agency. *)
Definition db1 : Database.t :=
  let '(d, cid) := Database.insert_category Database.empty 1%N
                     (lit "A") (lit "https://www.i-boss.co.kr/ab-1")
                     (lit "1") in
  let d := fst (Database.insert_agency d 2%N cid (lit "A") (lit "acme")
                  (Some (lit "acme.kr")) (Some NA) (Some (lit "ads"))
                  None None None) in
  Database.mark_category_scraped d 3%N cid.

(** A session that has just started in an empty store. *)
Definition started : Database.t * Z :=
  Database.start_scraping_session Database.empty 1%N.

Definition failed_args : Database.status_args :=
  Database.mk_args None None None None None None (Some (lit "failed")).

Definition completed_args : Database.status_args :=
  Database.mk_args None None None None None None (Some (lit "completed")).

(** The class [0-9]. *)
Definition ascii_digit (c : N) : bool := ((48 <=? c) && (c <=? 57))%N.

Fixpoint ascii_value (acc : Z) (s : pystr) : option Z :=
  match s with
  | [] => Some acc
  | c :: s' => if ascii_digit c
               then ascii_value (10 * acc + Z.of_N (c - 48)) s'
               else None
  end.

(** [int] on plain decimal numerals. *)
Definition ascii_int (s : pystr) : option Z :=
  match s with
  | [] => None
  | _ => ascii_value 0 s
  end.

Definition W : world :=
  mk_world N.of_nat ascii_digit ascii_int (fun _ _ _ => None) (Ok true).

Definition text_elem (text : pystr) : element :=
  mk_element (Ok text) (fun _ => Ok None) (Ok None).

Definition anchor (text href : pystr) : element :=
  mk_element (Ok text)
             (fun a => if pystr_eqb a (lit "href") then Ok (Some href)
                       else Ok None)
             (Ok None).

(** A listing entry with a name and, optionally, a titled link. *)
Definition entry (name : pystr) (href : option pystr) : agency_element :=
  mk_agency_element (Ok [])
    (fun sel =>
       if pystr_eqb sel (lit "a.link_tit > span.AB-LF-common")
       then Ok (Some (text_elem name))
       else if pystr_eqb sel (lit "a.link_tit")
            then Ok (option_map (anchor []) href)
            else Ok None).

(** A listing entry in which no selector finds anything. *)
Definition nameless : agency_element :=
  mk_agency_element (Ok []) (fun _ => Ok None).

Definition url_A : pystr := lit "https://www.i-boss.co.kr/ab-1".
Definition url_B : pystr := lit "https://www.i-boss.co.kr/ab-2".

(** Category A: one page, an entry with a detail link and a nameless
    one. *)
Definition listing_A : listing :=
  Page (Ok [entry (lit "acme") (Some (lit "/ab-1111?idx=42&x=1"));
            nameless])
       (Ok []) Stop.

(** Category B: two entries on the first page, one on the second. *)
Definition listing_B : listing :=
  Page (Ok [entry (lit "b1") None; entry (lit "b2") None]) (Ok [])
       (Click (Page (Ok [entry (lit "b3") None]) (Ok []) Stop)).

(** A detail page on which no content selector matches. *)
Definition bare_page (text : pystr) : detail_page :=
  mk_detail_page true (fun _ => None) (Ok tt) (Ok (Some text)).

Definition site1 : site :=
  mk_site
    (Ok [anchor (lit "A" ++ [10%N] ++ lit "2" ++ agencies_suffix)
                (lit "/ab-1");
         anchor (lit "B" ++ [10%N] ++ lit "3" ++ agencies_suffix)
                (lit "/ab-2")])
    (fun url => if pystr_eqb url url_A then listing_A
                else if pystr_eqb url url_B then listing_B
                     else Page (Ok []) (Ok []) Stop)
    (fun _ => bare_page (lit "  Hello " ++ [10%N] ++ lit " world ")).

(** A site whose directory page never shows its categories. *)
Definition site_down : site :=
  mk_site Raise (fun _ => Page (Ok []) (Ok []) Stop)
          (fun _ => bare_page []).

Definition everything : IBossScraper.config :=
  IBossScraper.mk_config None 0 false.

(** [db1] and a second category, not yet scraped. *)
Definition db2 : Database.t :=
  fst (Database.insert_category db1 4%N (lit "B") url_B (lit "3")).

(** Category B as a page whose page-advance step raises. *)
Definition site_fault : site :=
  mk_site (Ok [])
          (fun _ => Page (Ok [entry (lit "b1") None]) (Ok []) Fault)
          (fun _ => bare_page []).

(** A store with category A and no agency. *)
Definition db0 : Database.t :=
  fst (Database.insert_category Database.empty 1%N (lit "A") url_A
                                (lit "2")).

(** A page that lists one agency twice and then another one. *)
Definition listing_twice : listing :=
  Page (Ok [entry (lit "acme") None; entry (lit "acme") None;
            entry (lit "beta") None])
       (Ok []) Stop.

Definition site_twice : site :=
  mk_site (Ok []) (fun _ => listing_twice) (fun _ => bare_page []).

Definition at_most (n : Z) : IBossScraper.config :=
  IBossScraper.mk_config None n false.


(** A run of the listings alone. *)
Definition listing_only : IBossScraper.config :=
  IBossScraper.mk_config None 0 true.




(** The agency of [db2], as stored. *)
Definition acme_row : Database.agency_row :=
  Database.mk_agency 1 1 (lit "A") (lit "acme") (Some (lit "acme.kr"))
                     (Some NA) None (Some (lit "ads")) None None None
                     false 2%N.

(** A server whose answer breaks off while it is being written. *)
Definition breaking (_ : pystr) : IBossScraper.response := IBossScraper.Status_code 200 IBossScraper.Write_raises.

Definition logo_url : pystr := lit "https://www.i-boss.co.kr/logo.png".


(** A run of category A alone, listings only. *)
Definition only_A : IBossScraper.config :=
  IBossScraper.mk_config (Some [lit "A"]) 0 true.

End Sample.

(* ------------------------------------------------------------------ *)
(** ** The definitions on small inputs *)

Example split_two_lines :
  split_on 10 (lit "A" ++ [10%N] ++ lit "12") = [lit "A"; lit "12"].
Proof. reflexivity. Qed.

Example split_empty : split_on 10 [] = [[]].
Proof. reflexivity. Qed.

Example remove_suffix :
  strip (remove_all agencies_suffix (lit "12" ++ agencies_suffix ++ lit " "))
  = lit "12".
Proof. reflexivity. Qed.

Example sub_spaces_runs :
  sub_spaces (lit " a" ++ [9%N; 10%N] ++ lit "b  ") = lit " a b ".
Proof. reflexivity. Qed.

Example category_of_anchor :
  IBossScraper.category_of
    (Sample.anchor (lit "A" ++ [10%N] ++ lit "2" ++ agencies_suffix)
                   (lit "/ab-1"))
  = Ok (lit "A", Sample.url_A, lit "2").
Proof. reflexivity. Qed.

Example category_of_no_href :
  IBossScraper.category_of (Sample.text_elem (lit "A")) = Raise.
Proof. reflexivity. Qed.

Example idx_second_occurrence :
  IBossScraper.extract_agency_idx Sample.W (Some (lit "/a?idx=&b=idx=7x"))
  = Some (lit "7").
Proof. reflexivity. Qed.

Example idx_inside_a_word :
  IBossScraper.extract_agency_idx Sample.W (Some (lit "/a?pidx=42"))
  = Some (lit "42").
Proof. reflexivity. Qed.

Example idx_without_digits :
  IBossScraper.extract_agency_idx Sample.W (Some (lit "/a?idx=abc")) = None.
Proof. reflexivity. Qed.

Example upsert_twice_one_row :
  List.length
    (Database.agencies
       (fst (Database.insert_agency Sample.db1 9%N 1 (lit "A") (lit "acme")
               None None None None None None)))
  = 1%nat.
Proof. reflexivity. Qed.

Example no_args_no_statement :
  Database.update_scraping_status (fst Sample.started) 7%N 1 Database.no_args
  = fst Sample.started.
Proof. reflexivity. Qed.

(* ------------------------------------------------------------------ *)
(** ** Lists of rows looked up by key *)

Lemma pystr_eqb_eq (a b : pystr) : pystr_eqb a b = true <-> a = b.
Proof.
  revert b; induction a as [|x a IH]; intros [|y b]; simpl;
    try (split; intro H; [reflexivity || discriminate | reflexivity || discriminate]).
  rewrite andb_true_iff, N.eqb_eq, IH.
  split; [intros [-> ->]; reflexivity | intro H; inversion H; auto].
Qed.

Lemma pystr_eqb_refl (a : pystr) : pystr_eqb a a = true.
Proof. apply pystr_eqb_eq; reflexivity. Qed.

Section Lookup.
Context {A K : Type} (key : A -> K) (p : A -> bool) (k : K).
Hypothesis p_key : forall r, p r = true <-> key r = k.


Lemma filter_absent (l : list A) : ~ In k (map key l) -> filter p l = [].
Proof.
  induction l as [|a l IH]; simpl; intro H; [reflexivity|].
  destruct (p a) eqn:E.
  - exfalso; apply H; left; apply p_key; exact E.
  - apply IH; intro; apply H; right; assumption.
Qed.

Lemma find_none_absent (l : list A) : find p l = None -> ~ In k (map key l).
Proof.
  induction l as [|a l IH]; simpl; intros F H; [exact H|].
  destruct (p a) eqn:E; [discriminate|].
  destruct H as [H|H]; [|exact (IH F H)].
  apply p_key in H; congruence.
Qed.

Lemma find_some_unique (l : list A) (r : A) :
  NoDup (map key l) -> find p l = Some r -> filter p l = [r].
Proof.
  induction l as [|a l IH]; simpl; intros N F; [discriminate|].
  inversion N as [|? ? Hnot N']; subst.
  destruct (p a) eqn:E.
  - inversion F; subst. f_equal. apply filter_absent.
    apply p_key in E. rewrite <- E. exact Hnot.
  - apply IH; assumption.
Qed.

Lemma filter_map_same (f : A -> A) (l : list A) :
  (forall r, p (f r) = p r) -> filter p (map f l) = map f (filter p l).
Proof.
  intro H; induction l as [|a l IH]; simpl; [reflexivity|].
  rewrite H; destruct (p a); simpl; rewrite IH; reflexivity.
Qed.
End Lookup.

Lemma category_named_key (name : pystr) (r : Database.category_row) :
  pystr_eqb (Database.c_category_name r) name = true
  <-> Database.c_category_name r = name.
Proof. apply pystr_eqb_eq. Qed.

Lemma agency_named_key (cid : Z) (name : pystr) (r : Database.agency_row) :
  (Database.a_category_id r =? cid)
  && pystr_eqb (Database.a_agency_name r) name = true
  <-> agency_key r = (cid, name).
Proof.
  unfold agency_key. rewrite andb_true_iff, Z.eqb_eq, pystr_eqb_eq.
  split; [intros [-> ->]; reflexivity | intro H; inversion H; auto].
Qed.

(** *** One upsert of a category *)

Lemma insert_category_named db now name link count :
  NoDup (category_keys db) ->
  let r := Database.insert_category db now name link count in
  NoDup (category_keys (fst r))
  /\ exists row,
      categories_named name (fst r) = [row]
      /\ Database.c_id row = snd r
      /\ Database.c_category_link row = link
      /\ Database.c_agency_count row = count
      /\ Database.c_last_updated row = now.
Proof.
  intros N. unfold Database.insert_category, categories_named, category_keys in *.
  destruct (find _ (Database.categories db)) as [e|] eqn:F; simpl.
  - split.
    + rewrite map_map. erewrite map_ext; [exact N|].
      intro r; simpl. destruct (_ =? _); reflexivity.
    + rewrite (filter_map_same
                 (fun r => pystr_eqb (Database.c_category_name r) name)).
      2:{ intro r. destruct (_ =? _); reflexivity. }
      rewrite (find_some_unique Database.c_category_name _ name
                 (category_named_key name) _ e N F).
      simpl. rewrite Z.eqb_refl.
      eexists; split; [reflexivity|]. simpl. auto.
  - pose proof (find_none_absent Database.c_category_name _ name
                  (category_named_key name) _ F) as Hno.
    split.
    + rewrite map_app; simpl.
      apply NoDup_app; [exact N | repeat constructor; intros [] | ].
      intros x Hx [Hy|[]]; subst. exact (Hno Hx).
    + rewrite filter_app; simpl. rewrite pystr_eqb_refl.
      rewrite (filter_absent Database.c_category_name _ name
                 (category_named_key name) _ Hno).
      simpl. eexists; split; [reflexivity|]. simpl. auto.
Qed.


(** *** One upsert of an agency *)

Lemma insert_agency_named db now cid cname name url logo desc idx durl path :
  NoDup (agency_keys db) ->
  let r := Database.insert_agency db now cid cname name
                                  url logo desc idx durl path in
  NoDup (agency_keys (fst r))
  /\ exists row,
      agencies_named cid name (fst r) = [row]
      /\ Database.a_id row = snd r
      /\ Database.a_agency_url row = url
      /\ Database.a_agency_logo row = logo
      /\ Database.a_local_logo_path row = path
      /\ Database.a_agency_desc row = desc
      /\ Database.a_agency_idx row = idx
      /\ Database.a_agency_detail_url row = durl
      /\ Database.a_last_updated row = now.
Proof.
  intros N. unfold Database.insert_agency, agencies_named, agency_keys in *.
  destruct (find _ (Database.agencies db)) as [e|] eqn:F; simpl.
  - split.
    + rewrite map_map. erewrite map_ext; [exact N|].
      intro r; simpl. destruct (_ =? _); reflexivity.
    + rewrite (filter_map_same
                 (fun r => (Database.a_category_id r =? cid)
                           && pystr_eqb (Database.a_agency_name r) name)).
      2:{ intro r. destruct (Database.a_id r =? _); reflexivity. }
      rewrite (find_some_unique agency_key _ (cid, name)
                 (agency_named_key cid name) _ e N F).
      simpl. rewrite Z.eqb_refl.
      eexists; split; [reflexivity|]. simpl. repeat split.
  - pose proof (find_none_absent agency_key _ (cid, name)
                  (agency_named_key cid name) _ F) as Hno.
    split.
    + rewrite map_app; simpl.
      apply NoDup_app; [exact N | repeat constructor; intros [] | ].
      intros x Hx [Hy|[]]; subst. exact (Hno Hx).
    + rewrite filter_app; simpl. rewrite Z.eqb_refl, pystr_eqb_refl. simpl.
      rewrite (filter_absent agency_key _ (cid, name)
                 (agency_named_key cid name) _ Hno).
      simpl. eexists; split; [reflexivity|]. simpl. repeat split.
Qed.


(* ------------------------------------------------------------------ *)
(** ** The store *)



(** *** The session row *)

Lemma Forall2_map_self {A : Type} (R : A -> A -> Prop) (f : A -> A)
      (l : list A) :
  (forall x, R x (f x)) -> Forall2 R l (map f l).
Proof. intro H; induction l; simpl; constructor; auto. Qed.

Lemma updated_columns now a r :
  let r' := updated now a r in
  Database.s_id r' = Database.s_id r
  /\ Database.s_session_start r' = Database.s_session_start r
  /\ written (Database.categories_total a)
             (Database.s_categories_total r) (Database.s_categories_total r')
  /\ written (Database.categories_scraped a)
             (Database.s_categories_scraped r) (Database.s_categories_scraped r')
  /\ written (Database.agencies_total a)
             (Database.s_agencies_total r) (Database.s_agencies_total r')
  /\ written (Database.agencies_scraped a)
             (Database.s_agencies_scraped r) (Database.s_agencies_scraped r')
  /\ written (Database.details_total a)
             (Database.s_details_total r) (Database.s_details_total r')
  /\ written (Database.details_scraped a)
             (Database.s_details_scraped r) (Database.s_details_scraped r')
  /\ written (option_map Some (Database.status a))
             (Database.s_status r) (Database.s_status r')
  /\ Database.s_session_end r'
     = if Database.is_completed (Database.status a) then Some now
       else Database.s_session_end r.
Proof.
  destruct a as [[?|] [?|] [?|] [?|] [?|] [?|] [v|]];
    unfold updated, Database.update_fields; simpl;
    try (destruct (pystr_eqb v (lit "completed")); simpl);
    repeat split.
Qed.

Lemma update_scraping_status_rows db now sid a :
  let db' := Database.update_scraping_status db now sid a in
  Database.scraping_status db'
  = map (fun r => if Database.s_id r =? sid then updated now a r else r)
        (Database.scraping_status db)
  /\ Database.categories db' = Database.categories db
  /\ Database.agencies db' = Database.agencies db.
Proof.
  unfold Database.update_scraping_status, updated.
  destruct (Database.update_fields a) eqn:E; simpl.
  - split; [|split; reflexivity].
    rewrite <- (map_id (Database.scraping_status db)) at 1.
    apply map_ext. intro r. destruct (_ =? _); reflexivity.
  - repeat split.
Qed.

(** C10 (as amended) -- Frame of [update_scraping_status].  The rows of
    the other tables and the session rows with another id are
    untouched.  On the row addressed, each of the seven columns that
    has a keyword argument keeps its value when the argument is [None]
    and takes the argument otherwise; [id] and [session_start] are
    never written; and [session_end], which has no argument, is set to
    the current time when the status argument is ['completed'] and kept
    otherwise.  With every argument [None] the list of assignments is
    empty and no statement is executed. *)
Theorem update_scraping_status_frame :
  forall db now sid a,
    let db' := Database.update_scraping_status db now sid a in
    Database.categories db' = Database.categories db
    /\ Database.agencies db' = Database.agencies db
    /\ Forall2
         (fun r r' =>
            if Database.s_id r =? sid then
              Database.s_id r' = Database.s_id r
              /\ Database.s_session_start r' = Database.s_session_start r
              /\ written (Database.categories_total a)
                   (Database.s_categories_total r)
                   (Database.s_categories_total r')
              /\ written (Database.categories_scraped a)
                   (Database.s_categories_scraped r)
                   (Database.s_categories_scraped r')
              /\ written (Database.agencies_total a)
                   (Database.s_agencies_total r)
                   (Database.s_agencies_total r')
              /\ written (Database.agencies_scraped a)
                   (Database.s_agencies_scraped r)
                   (Database.s_agencies_scraped r')
              /\ written (Database.details_total a)
                   (Database.s_details_total r)
                   (Database.s_details_total r')
              /\ written (Database.details_scraped a)
                   (Database.s_details_scraped r)
                   (Database.s_details_scraped r')
              /\ written (option_map Some (Database.status a))
                   (Database.s_status r) (Database.s_status r')
              /\ Database.s_session_end r'
                 = (if Database.is_completed (Database.status a)
                    then Some now
                    else Database.s_session_end r)
            else r' = r)
         (Database.scraping_status db) (Database.scraping_status db')
    /\ Database.update_fields Database.no_args = []
    /\ Database.update_scraping_status db now sid Database.no_args = db.
Proof.
  intros db now sid a db'.
  destruct (update_scraping_status_rows db now sid a) as [Hs [Hc Ha]].
  fold db' in Hs, Hc, Ha.
  split; [exact Hc|]. split; [exact Ha|]. split; [|split; reflexivity].
  rewrite Hs. apply Forall2_map_self. intro r.
  destruct (Database.s_id r =? sid); [|reflexivity].
  pose proof (updated_columns now a r) as H. simpl in H.
  decompose [and] H. repeat split; assumption.
Qed.

(** C10 (as stated) fails for the end time: a call whose only argument
    is the status ['completed'] also writes [session_end], a column
    that has no argument. *)
Lemma session_end_written_without_argument :
  let db := Database.update_scraping_status
              (fst Sample.started) 2%N (snd Sample.started)
              Sample.completed_args in
  Database.update_fields Sample.completed_args
  = [Database.Status (lit "completed"); Database.Session_end_now]
  /\ option_map Database.s_session_end
       (session_row (fst Sample.started) (snd Sample.started))
     = Some None
  /\ option_map Database.s_session_end
       (session_row db (snd Sample.started))
     = Some (Some 2%N).
Proof. repeat split. Qed.

(** C7 (as amended) -- Session end time.  A session row is created with
    a null end time and status ['running'].  An update writes the end
    time exactly when it addresses the row and its status argument is
    ['completed']; every other update, an update to ['failed'] included,
    leaves the end time as it was. *)
Theorem session_end_on_completed :
  (forall db now,
      let r := Database.start_scraping_session db now in
      exists row,
        Database.scraping_status (fst r) = Database.scraping_status db ++ [row]
        /\ Database.s_id row = snd r
        /\ Database.s_session_end row = None
        /\ Database.s_status row = Some (lit "running"))
  /\ (forall db now sid a,
         Forall2
           (fun r r' =>
              Database.s_session_end r'
              = if (Database.s_id r =? sid)
                   && Database.is_completed (Database.status a)
                then Some now
                else Database.s_session_end r)
           (Database.scraping_status db)
           (Database.scraping_status
              (Database.update_scraping_status db now sid a)))
  /\ Database.is_completed (Some (lit "completed")) = true
  /\ Database.is_completed (Some (lit "failed")) = false.
Proof.
  split; [|split; [|split; reflexivity]].
  - intros db now r. eexists; simpl. split; [reflexivity|]. repeat split.
  - intros db now sid a.
    destruct (update_scraping_status_rows db now sid a) as [Hs _].
    rewrite Hs. apply Forall2_map_self. intro r.
    destruct (Database.s_id r =? sid); simpl; [|reflexivity].
    pose proof (updated_columns now a r) as H. simpl in H.
    decompose [and] H. assumption.
Qed.

(** C7 (as stated) fails: a session taken to ['failed'] has reached a
    terminal status and its end time is still null; so ends the run on
    a site whose directory page shows no category. *)
Lemma session_end_not_on_failed :
  let db := Database.update_scraping_status
              (fst Sample.started) 2%N (snd Sample.started)
              Sample.failed_args in
  let s := IBossScraper.scrape_all Sample.W Sample.site_down
             Sample.everything
             (IBossScraper.init Sample.W Database.empty) in
  option_map Database.s_status (session_row db (snd Sample.started))
  = Some (Some (lit "failed"))
  /\ option_map Database.s_session_end
                (session_row db (snd Sample.started))
     = Some None
  /\ option_map Database.s_status
       (session_row (IBossScraper.db s) (IBossScraper.session_id s))
     = Some (Some (lit "failed"))
  /\ option_map Database.s_session_end
       (session_row (IBossScraper.db s) (IBossScraper.session_id s))
     = Some None.
Proof. repeat split. Qed.

(** *** Reachable stores *)

Lemma reachable_detailed_have_desc db : reachable db -> detailed_have_desc db.
Proof.
  induction 1 as [ | db now name link count _ IH
                   | db now cid cname name url logo desc idx durl path _ IH
                   | db now aid d _ IH
                   | db now cid _ IH
                   | db now _ IH
                   | db now sid a _ IH ]; unfold detailed_have_desc in *.
  - intros r [].
  - unfold Database.insert_category.
    destruct (find _ (Database.categories db)); exact IH.
  - unfold Database.insert_agency.
    destruct (find _ (Database.agencies db)) as [e|]; simpl; intros r Hin.
    + apply in_map_iff in Hin. destruct Hin as [r0 [<- Hin]].
      destruct (Database.a_id r0 =? Database.a_id e); simpl;
        apply IH; assumption.
    + apply in_app_iff in Hin. destruct Hin as [Hin|[<-|[]]].
      * apply IH; assumption.
      * simpl; discriminate.
  - simpl. intros r Hin. apply in_map_iff in Hin.
    destruct Hin as [r0 [<- Hin]].
    destruct (Database.a_id r0 =? aid); simpl.
    + discriminate.
    + apply IH; assumption.
  - exact IH.
  - exact IH.
  - rewrite (proj2 (proj2 (update_scraping_status_rows db now sid a))).
    exact IH.
Qed.

(** In every reachable store the natural keys are unique. *)
Lemma reachable_keyed db : reachable db -> keyed db.
Proof.
  induction 1 as [ | db now name link count _ [IHc IHa]
                   | db now cid cname name url logo desc idx durl path _
                        [IHc IHa]
                   | db now aid d _ [IHc IHa]
                   | db now cid _ [IHc IHa]
                   | db now _ IH
                   | db now sid a _ [IHc IHa] ].
  - split; constructor.
  - split.
    + exact (proj1 (insert_category_named db now name link count IHc)).
    + unfold agency_keys, Database.insert_category.
      destruct (find _ (Database.categories db)); exact IHa.
  - split.
    + unfold category_keys, Database.insert_agency.
      destruct (find _ (Database.agencies db)); exact IHc.
    + exact (proj1 (insert_agency_named db now cid cname name url logo desc
                      idx durl path IHa)).
  - split; [exact IHc|].
    unfold agency_keys. simpl. rewrite map_map.
    erewrite map_ext; [exact IHa|].
    intro r. destruct (Database.a_id r =? aid); reflexivity.
  - split; [|exact IHa].
    unfold category_keys. simpl. rewrite map_map.
    erewrite map_ext; [exact IHc|].
    intro r. destruct (Database.c_id r =? cid); reflexivity.
  - exact IH.
  - destruct (update_scraping_status_rows db now sid a) as [_ [Hc Ha]].
    unfold keyed, category_keys, agency_keys. rewrite Hc, Ha.
    split; assumption.
Qed.

Lemma listing_induction (P : listing -> Prop) :
  (forall p a, P (Page p a Stop)) ->
  (forall p a, P (Page p a Fault)) ->
  (forall p a l, P l -> P (Page p a (Click l))) ->
  forall l, P l.
Proof.
  intros HS HF HC. fix IH 1.
  intros [p a [ | | l]]; [apply HS | apply HF | apply HC, IH].
Qed.

Section Runs.
Import IBossScraper.
Variables (W : world) (S : site) (C : config).

Lemma update_status_reachable s a :
  reachable (db s) -> reachable (db (update_status W s a)).
Proof. intro H; simpl. apply reach_update_scraping_status; exact H. Qed.

Lemma persist_reachable cid cname x s :
  reachable (db s) -> reachable (db (fst (persist W cid cname x s))).
Proof.
  intro H. unfold persist.
  destruct (Database.insert_agency _ _ _ _ _ _ _ _ _ _ _) as [d aid] eqn:E.
  simpl. apply reach_update_scraping_status.
  change d with (fst (d, aid)). rewrite <- E.
  apply reach_insert_agency; exact H.
Qed.

Lemma for_agencies_reachable cid cname els :
  forall s k data,
    reachable (db s) ->
    reachable (db (fst (fst (for_agencies W C cid cname els s k data)))).
Proof.
  induction els as [|e els IH]; intros s k data H; simpl; [exact H|].
  destruct (cap_reached C k); [exact H|].
  destruct (extract W cname e) as [[x|]|]; try (apply IH; exact H).
  pose proof (persist_reachable cid cname x s H) as Hp.
  destruct (persist W cid cname x s) as [s' aid]. apply IH; exact Hp.
Qed.

Lemma while_pages_reachable cid cname l :
  forall s k data,
    reachable (db s) ->
    reachable (db (fst (fst (while_pages W C cid cname l s k data)))).
Proof.
  induction l as [p a|p a|p a l IH] using listing_induction;
    intros s k data H; simpl;
    (destruct (elements_of p a) as [els|]; [|exact H]);
    pose proof (for_agencies_reachable cid cname els s k data H) as Hf;
    destruct (for_agencies W C cid cname els s k data) as [[s' k'] data'];
    simpl in Hf; destruct (cap_reached C k'); try exact Hf.
  apply IH; exact Hf.
Qed.

Lemma get_agencies_in_category_reachable s cid cname curl :
  reachable (db s) ->
  reachable (db (fst (get_agencies_in_category W S C s cid cname curl))).
Proof.
  intro H. unfold get_agencies_in_category.
  pose proof (while_pages_reachable cid cname
                (listing_of S (absolute curl))
                (navigate_to_url s curl) 0 [] H) as Hw.
  destruct (while_pages _ _ _ _ _ _ _ _) as [[s' data] [|]]; simpl in *.
  - apply reach_update_scraping_status, reach_mark_category_scraped.
    exact Hw.
  - exact Hw.
Qed.

Lemma for_categories_reachable els :
  forall s data,
    reachable (db s) ->
    reachable (db (fst (for_categories W els s data))).
Proof.
  induction els as [|e els IH]; intros s data H; simpl; [exact H|].
  destruct (category_of e) as [[[name link] count]|]; [|apply IH; exact H].
  destruct (Database.insert_category _ _ _ _ _) as [d cid] eqn:E.
  apply IH. simpl. change d with (fst (d, cid)). rewrite <- E.
  apply reach_insert_category; exact H.
Qed.

Lemma get_categories_reachable s :
  reachable (db s) -> reachable (db (fst (get_categories W S s))).
Proof.
  intro H. unfold get_categories. destruct (main_page S); [|exact H].
  apply for_categories_reachable, update_status_reachable. exact H.
Qed.

Lemma get_agency_detail_reachable s aid name idx url :
  reachable (db s) ->
  reachable (db (fst (get_agency_detail W S s aid name idx url))).
Proof.
  intro H. unfold get_agency_detail.
  destruct url as [[|c u]|]; try exact H.
  destruct (navigated _); [|exact H].
  destruct (detail_desc_of _) as [[d|]|]; try exact H.
  simpl. apply reach_update_scraping_status, reach_update_agency_detail.
  exact H.
Qed.

Lemma for_details_reachable agencies :
  forall s, reachable (db s) -> reachable (db (for_details W S agencies s)).
Proof.
  induction agencies as [|[[[aid name] idx] url] rest IH]; intros s H;
    simpl; [exact H|].
  apply IH, get_agency_detail_reachable; exact H.
Qed.

Lemma scrape_all_agency_details_reachable s :
  reachable (db s) -> reachable (db (scrape_all_agency_details W S s)).
Proof.
  intro H. unfold scrape_all_agency_details.
  destruct (Database.get_agencies_without_details (db s)); [exact H|].
  apply for_details_reachable, update_status_reachable. exact H.
Qed.

Lemma for_listings_reachable categories :
  forall s, reachable (db s) ->
            reachable (db (for_listings W S C categories s)).
Proof.
  induction categories as [|c rest IH]; intros s H; simpl; [exact H|].
  apply IH, get_agencies_in_category_reachable; exact H.
Qed.

Lemma scrape_all_reachable s :
  reachable (db s) -> reachable (db (scrape_all W S C s)).
Proof.
  intro H. unfold scrape_all.
  pose proof (get_categories_reachable s H) as Hg.
  destruct (get_categories W S s) as [s1 cats]; simpl in Hg.
  destruct cats as [|c cats];
    [apply update_status_reachable; exact Hg|].
  destruct (sum_counts W _);
    [|apply update_status_reachable; exact Hg].
  assert (Hl : reachable
                 (db (for_listings W S C (select C (c :: cats))
                        (update_status W (set_agencies_total s1 z)
                           (Database.mk_args None None
                              (Some (agencies_total (set_agencies_total s1 z)))
                              None None None None))))).
  { apply for_listings_reachable, update_status_reachable. exact Hg. }
  destruct (skip_details C); destruct (export_to_csv W);
    apply update_status_reachable; try exact Hl;
    apply scrape_all_agency_details_reachable; exact Hl.
Qed.

Lemma init_reachable d : reachable d -> reachable (db (init W d)).
Proof.
  intro H. unfold init.
  destruct (Database.start_scraping_session d (clock W 0)) as [d' sid] eqn:E.
  simpl. change d' with (fst (d', sid)). rewrite <- E.
  apply reach_start_scraping_session; exact H.
Qed.
End Runs.

Lemma flagged_insert_agency db now cid cname name url logo desc idx durl path :
  flagged (fst (Database.insert_agency db now cid cname name
                                       url logo desc idx durl path))
  = flagged db.
Proof.
  unfold flagged, Database.insert_agency.
  destruct (find _ (Database.agencies db)) as [e|]; simpl.
  - induction (Database.agencies db) as [|r l IH]; simpl; [reflexivity|].
    destruct (Database.a_id r =? Database.a_id e); simpl;
      destruct (Database.a_detailed_scraped r); simpl; rewrite IH;
      reflexivity.
  - rewrite filter_app; simpl. rewrite app_nil_r. reflexivity.
Qed.

(** C6 -- Detail invariant.  In every reachable store each agency
    flagged [detailed_scraped] has a detail description.  The flag is
    set by [update_agency_detail] alone, which writes the description in
    the same statement; the other writers keep the set of flagged
    agencies; and the runs of the scraper, which call it with a string
    only, keep the store reachable. *)
Theorem detail_invariant :
  (forall db, reachable db -> detailed_have_desc db)
  /\ (forall db now aid d,
         Forall (fun r => Database.a_id r = aid ->
                          Database.a_detailed_scraped r = true
                          /\ Database.a_agency_detail_desc r = d)
                (Database.agencies
                   (Database.update_agency_detail db now aid d)))
  /\ (forall db now name link count cid cname url logo desc idx durl path
             sid a,
         flagged (fst (Database.insert_category db now name link count))
         = flagged db
         /\ flagged (fst (Database.insert_agency db now cid cname name
                            url logo desc idx durl path))
            = flagged db
         /\ flagged (Database.mark_category_scraped db now cid) = flagged db
         /\ flagged (fst (Database.start_scraping_session db now))
            = flagged db
         /\ flagged (Database.update_scraping_status db now sid a)
            = flagged db)
  /\ (forall W S C s,
         reachable (IBossScraper.db s) ->
         reachable (IBossScraper.db (IBossScraper.scrape_all W S C s)))
  /\ (forall W d,
         reachable d -> reachable (IBossScraper.db (IBossScraper.init W d))).
Proof.
  split; [exact reachable_detailed_have_desc|].
  split.
  { intros db now aid d. simpl. apply Forall_forall. intros r Hin Hid.
    apply in_map_iff in Hin. destruct Hin as [r0 [<- Hin]].
    destruct (Database.a_id r0 =? aid) eqn:E; simpl; [split; reflexivity|].
    simpl in Hid. apply Z.eqb_neq in E. contradiction. }
  split.
  { intros. repeat split.
    - unfold Database.insert_category.
      destruct (find _ (Database.categories db)); reflexivity.
    - apply flagged_insert_agency.
    - unfold flagged.
      rewrite (proj2 (proj2 (update_scraping_status_rows db now sid a))).
      reflexivity. }
  split.
  - intros W S C s. apply scrape_all_reachable.
  - intros W d. apply init_reachable.
Qed.

Lemma detail_invariant_witness :
  let s := IBossScraper.scrape_all Sample.W Sample.site1 Sample.everything
             (IBossScraper.init Sample.W Database.empty) in
  flagged (IBossScraper.db s) = [1]
  /\ detailed_have_desc (IBossScraper.db s).
Proof.
  split; [vm_compute; reflexivity|].
  apply (proj1 detail_invariant).
  apply (proj1 (proj2 (proj2 (proj2 detail_invariant)))).
  apply (proj2 (proj2 (proj2 (proj2 detail_invariant)))).
  exact reach_empty.
Defined.

(* ------------------------------------------------------------------ *)
(** ** The listing entries *)

Lemma digits_app W ds rest :
  forallb (is_digit W) ds = true ->
  match rest with c :: _ => is_digit W c = false | [] => True end ->
  IBossScraper.digits W (ds ++ rest) = ds.
Proof.
  intros Hd Hr. induction ds as [|d ds IH]; simpl in *.
  - destruct rest as [|c rest]; simpl; [reflexivity|]. rewrite Hr; reflexivity.
  - apply andb_true_iff in Hd. destruct Hd as [Hd Hds].
    rewrite Hd, (IH Hds). reflexivity.
Qed.

Lemma search_idx_step W c s :
  IBossScraper.search_idx W (c :: s)
  = if idx_at W (c :: s)
    then Some (IBossScraper.digits W (skipn 4 (c :: s)))
    else IBossScraper.search_idx W s.
Proof.
  unfold idx_at.
  change (IBossScraper.search_idx W (c :: s))
    with (if startswith (lit "idx=") (c :: s)
          then match IBossScraper.digits W (skipn 4 (c :: s)) with
               | [] => IBossScraper.search_idx W s
               | ds => Some ds
               end
          else IBossScraper.search_idx W s).
  destruct (startswith (lit "idx=") (c :: s)); simpl; [|reflexivity].
  destruct (IBossScraper.digits W _); reflexivity.
Qed.

Lemma search_idx_first W pre ds rest :
  ds <> [] ->
  forallb (is_digit W) ds = true ->
  match rest with c :: _ => is_digit W c = false | [] => True end ->
  (forall i, (i < List.length pre)%nat ->
             idx_at W (skipn i (pre ++ lit "idx=" ++ ds ++ rest)) = false) ->
  IBossScraper.search_idx W (pre ++ lit "idx=" ++ ds ++ rest) = Some ds.
Proof.
  intros Hne Hd Hr. induction pre as [|c pre IH]; intro Hfirst.
  - change ([] ++ lit "idx=" ++ ds ++ rest)
      with (105%N :: 100%N :: 120%N :: 61%N :: ds ++ rest).
    rewrite search_idx_step. unfold idx_at.
    change (skipn 4 (105%N :: 100%N :: 120%N :: 61%N :: ds ++ rest))
      with (ds ++ rest).
    rewrite (digits_app W ds rest Hd Hr).
    destruct ds; [contradiction|reflexivity].
  - change ((c :: pre) ++ lit "idx=" ++ ds ++ rest)
      with (c :: (pre ++ lit "idx=" ++ ds ++ rest)).
    rewrite search_idx_step.
    assert (H0 : idx_at W (c :: (pre ++ lit "idx=" ++ ds ++ rest)) = false)
      by (apply (Hfirst O); simpl; lia).
    rewrite H0.
    apply IH. intros i Hi. apply (Hfirst (Datatypes.S i)). simpl; lia.
Qed.

Lemma search_idx_absent W href :
  (forall i, startswith (lit "idx=") (skipn i href) = false) ->
  IBossScraper.search_idx W href = None.
Proof.
  induction href as [|c s IH]; intro H; [reflexivity|].
  rewrite search_idx_step. unfold idx_at.
  assert (H0 : startswith (lit "idx=") (c :: s) = false) by exact (H O).
  rewrite H0. simpl.
  apply IH. intro i. exact (H (Datatypes.S i)).
Qed.

(** C4 -- idx and detail URL.  When the first place of the href at
    which [idx=] is followed by a digit is followed by the digits [ds]
    (as many as there are), the idx is [ds] and the detail URL is the
    template ["https://www.i-boss.co.kr/ab-7554-"] applied to [ds]; an
    href without [idx=], and a missing href, give neither.  For
    ["/ab-1111?idx=42&x=1"] the idx is ["42"]. *)
Theorem idx_derivation :
  (forall W pre ds rest,
      ds <> [] ->
      forallb (is_digit W) ds = true ->
      match rest with c :: _ => is_digit W c = false | [] => True end ->
      (forall i, (i < List.length pre)%nat ->
                 idx_at W (skipn i (pre ++ lit "idx=" ++ ds ++ rest)) = false) ->
      let href := Some (pre ++ lit "idx=" ++ ds ++ rest) in
      IBossScraper.extract_agency_idx W href = Some ds
      /\ IBossScraper.derive W href
         = (Some ds, Some (IBossScraper.base_url ++ lit "/ab-7554-" ++ ds)))
  /\ (forall W href,
         (forall i, startswith (lit "idx=") (skipn i href) = false) ->
         IBossScraper.extract_agency_idx W (Some href) = None
         /\ IBossScraper.derive W (Some href) = (None, None))
  /\ (forall W,
         IBossScraper.extract_agency_idx W None = None
         /\ IBossScraper.derive W None = (None, None))
  /\ (forall W,
         is_digit W 52 = true -> is_digit W 50 = true ->
         is_digit W 38 = false ->
         IBossScraper.derive W (Some (lit "/ab-1111?idx=42&x=1"))
         = (Some (lit "42"),
            Some (lit "https://www.i-boss.co.kr/ab-7554-42"))).
Proof.
  assert (first : forall W pre ds rest,
      ds <> [] ->
      forallb (is_digit W) ds = true ->
      match rest with c :: _ => is_digit W c = false | [] => True end ->
      (forall i, (i < List.length pre)%nat ->
                 idx_at W (skipn i (pre ++ lit "idx=" ++ ds ++ rest)) = false) ->
      IBossScraper.extract_agency_idx W (Some (pre ++ lit "idx=" ++ ds ++ rest))
      = Some ds
      /\ IBossScraper.derive W (Some (pre ++ lit "idx=" ++ ds ++ rest))
         = (Some ds, Some (IBossScraper.base_url ++ lit "/ab-7554-" ++ ds))).
  { intros W pre ds rest Hne Hd Hr Hfirst.
    pose proof (search_idx_first W pre ds rest Hne Hd Hr Hfirst) as Hs.
    assert (T : truthy (Some (pre ++ lit "idx=" ++ ds ++ rest)) = true).
    { destruct pre; reflexivity. }
    assert (E : IBossScraper.extract_agency_idx W
                  (Some (pre ++ lit "idx=" ++ ds ++ rest)) = Some ds).
    { unfold IBossScraper.extract_agency_idx. rewrite T. exact Hs. }
    split; [exact E|].
    unfold IBossScraper.derive. rewrite T, E.
    destruct ds; [contradiction|reflexivity]. }
  split; [exact first|].
  split.
  { intros W href H.
    assert (E : IBossScraper.extract_agency_idx W (Some href) = None).
    { unfold IBossScraper.extract_agency_idx.
      destruct (truthy (Some href)); [|reflexivity].
      apply search_idx_absent; exact H. }
    split; [exact E|].
    unfold IBossScraper.derive. rewrite E.
    destruct (truthy (Some href)); reflexivity. }
  split; [intro W; split; reflexivity|].
  intros W H4 H2 Hamp.
  apply (proj2 (first W (lit "/ab-1111?") (lit "42") (lit "&x=1")
                  ltac:(discriminate)
                  ltac:(simpl; rewrite H4, H2; reflexivity)
                  Hamp
                  ltac:(intros i Hi;
                        do 9 (destruct i as [|i]; [reflexivity|]);
                        simpl in Hi; lia))).
Qed.

Lemma idx_derivation_witness :
  IBossScraper.derive Sample.W (Some (lit "/ab-1111?idx=42&x=1"))
  = (Some (lit "42"), Some (lit "https://www.i-boss.co.kr/ab-7554-42")).
Proof.
  apply (proj2 (proj2 (proj2 idx_derivation)) Sample.W);
    vm_compute; reflexivity.
Defined.

(* ------------------------------------------------------------------ *)
(** ** The detail page *)










Lemma extract_sentinels W cname agency html e name u l d :
  inner_html agency = Ok html ->
  IBossScraper.name_elem agency = Ok (Some e) ->
  inner_text e = Ok name ->
  IBossScraper.url_elem agency = Ok u ->
  IBossScraper.logo_elem agency = Ok l ->
  IBossScraper.desc_elem agency = Ok d ->
  IBossScraper.text_or_NA u <> Raise ->
  IBossScraper.text_or_NA d <> Raise ->
  exists x,
    IBossScraper.extract W cname agency = Ok (Some x)
    /\ IBossScraper.x_agency_name x = name
    /\ (u = None -> IBossScraper.x_agency_url x = Some NA)
    /\ (l = None -> IBossScraper.x_agency_logo x = Some NA
                    /\ IBossScraper.x_local_logo_path x = None)
    /\ (d = None -> IBossScraper.x_agency_desc x = Some NA)
    /\ (IBossScraper.link_href agency e = None ->
        IBossScraper.x_agency_idx x = None
        /\ IBossScraper.x_agency_detail_url x = None).
Proof.
  intros Hh Hn Ht Hu Hl Hd Hut Hdt.
  destruct (IBossScraper.text_or_NA u) as [ut|] eqn:Eu; [|contradiction].
  destruct (IBossScraper.text_or_NA d) as [dt|] eqn:Ed; [|contradiction].
  unfold IBossScraper.extract.
  rewrite Hh; cbn [bind]. rewrite Hn; cbn [bind]. rewrite Ht; cbn [bind].
  destruct (IBossScraper.derive W (IBossScraper.link_href agency e))
    as [i du] eqn:Ederive.
  rewrite Hu; cbn [bind]. rewrite Eu; cbn [bind].
  rewrite Hl; cbn [bind]. rewrite Hd; cbn [bind]. rewrite Ed; cbn [bind].
  eexists; split; [reflexivity|].
  cbn [IBossScraper.x_agency_name IBossScraper.x_agency_url
       IBossScraper.x_agency_logo IBossScraper.x_local_logo_path
       IBossScraper.x_agency_desc IBossScraper.x_agency_idx
       IBossScraper.x_agency_detail_url].
  split; [reflexivity|]. split; [|split; [|split]].
  - intros ->. simpl in Eu. congruence.
  - intros ->. split; reflexivity.
  - intros ->. simpl in Ed. congruence.
  - intro Hnone. rewrite Hnone in Ederive. inversion Ederive. split; reflexivity.
Qed.

Lemma persist_row W cid cname x s :
  NoDup (agency_keys (IBossScraper.db s)) ->
  exists row,
    agencies_named cid (IBossScraper.x_agency_name x)
                   (IBossScraper.db (fst (IBossScraper.persist W cid cname x s)))
    = [row]
    /\ Database.a_agency_url row = IBossScraper.x_agency_url x
    /\ Database.a_agency_logo row = IBossScraper.x_agency_logo x
    /\ Database.a_local_logo_path row = IBossScraper.x_local_logo_path x
    /\ Database.a_agency_desc row = IBossScraper.x_agency_desc x
    /\ Database.a_agency_idx row = IBossScraper.x_agency_idx x
    /\ Database.a_agency_detail_url row = IBossScraper.x_agency_detail_url x.
Proof.
  intro N. unfold IBossScraper.persist.
  pose proof (insert_agency_named (IBossScraper.db s) (IBossScraper.now W s)
                cid cname (IBossScraper.x_agency_name x)
                (IBossScraper.x_agency_url x) (IBossScraper.x_agency_logo x)
                (IBossScraper.x_agency_desc x) (IBossScraper.x_agency_idx x)
                (IBossScraper.x_agency_detail_url x)
                (IBossScraper.x_local_logo_path x) N) as H.
  destruct (Database.insert_agency _ _ _ _ _ _ _ _ _ _ _) as [d aid].
  simpl in H. destruct H as [_ [row [F [_ [Hu [Hl [Hp [Hd [Hi [Hdu _]]]]]]]]]].
  exists row. split; [|tauto].
  unfold agencies_named in *.
  cbn [fst IBossScraper.db IBossScraper.update_status IBossScraper.put_db].
  rewrite (proj2 (proj2 (update_scraping_status_rows _ _ _ _))).
  exact F.
Qed.

(** C8 (as amended) -- Sentinel degradation.  For an entry reached
    below the cap on which no browser call raises: when no name element
    is found the entry is skipped and nothing is stored for it; when
    the name is found the entry is upserted, and a missing external
    URL, logo or description is stored as ["N/A"] (with no local logo
    path), and a missing link as a null idx and a null detail URL. *)
Theorem sentinel_degradation (W : world) (C : IBossScraper.config)
        (cid : Z) (cname : pystr) (agency : agency_element)
        (rest : list agency_element) (s : IBossScraper.t) (k : Z)
        (data : list (Z * IBossScraper.extracted)) :
  IBossScraper.cap_reached C k = false ->
  inner_html agency <> Raise ->
  NoDup (agency_keys (IBossScraper.db s)) ->
  (IBossScraper.name_elem agency = Ok None ->
   IBossScraper.for_agencies W C cid cname (agency :: rest) s k data
   = IBossScraper.for_agencies W C cid cname rest s k data)
  /\ (forall e name u l d,
         IBossScraper.name_elem agency = Ok (Some e) ->
         inner_text e = Ok name ->
         IBossScraper.url_elem agency = Ok u ->
         IBossScraper.logo_elem agency = Ok l ->
         IBossScraper.desc_elem agency = Ok d ->
         IBossScraper.text_or_NA u <> Raise ->
         IBossScraper.text_or_NA d <> Raise ->
         exists x row,
           IBossScraper.for_agencies W C cid cname (agency :: rest) s k data
           = IBossScraper.for_agencies W C cid cname rest
               (fst (IBossScraper.persist W cid cname x s)) (k + 1)
               (data ++ [(snd (IBossScraper.persist W cid cname x s), x)])
           /\ agencies_named cid name
                (IBossScraper.db (fst (IBossScraper.persist W cid cname x s)))
              = [row]
           /\ (u = None -> Database.a_agency_url row = Some NA)
           /\ (l = None -> Database.a_agency_logo row = Some NA
                           /\ Database.a_local_logo_path row = None)
           /\ (d = None -> Database.a_agency_desc row = Some NA)
           /\ (IBossScraper.link_href agency e = None ->
               Database.a_agency_idx row = None
               /\ Database.a_agency_detail_url row = None)).
Proof.
  intros Hcap Hhtml Hkeys.
  destruct (inner_html agency) as [html|] eqn:Eh; [|contradiction].
  split.
  - intro Hn. cbn [IBossScraper.for_agencies]. rewrite Hcap.
    unfold IBossScraper.extract. rewrite Eh; cbn [bind]. rewrite Hn.
    reflexivity.
  - intros e name u l d Hn Ht Hu Hl Hd Hut Hdt.
    destruct (extract_sentinels W cname agency html e name u l d
                Eh Hn Ht Hu Hl Hd Hut Hdt)
      as [x [Ex [Xn [Xu [Xl [Xd Xi]]]]]].
    destruct (persist_row W cid cname x s Hkeys)
      as [row [F [Ru [Rl [Rp [Rd [Ri Rdu]]]]]]].
    exists x, row.
    split.
    { cbn [IBossScraper.for_agencies]. rewrite Hcap, Ex.
      destruct (IBossScraper.persist W cid cname x s); reflexivity. }
    split; [rewrite <- Xn; exact F|].
    rewrite Ru, Rl, Rp, Rd, Ri, Rdu. tauto.
Qed.

Lemma sentinel_degradation_witness :
  exists row,
    agencies_named 1 (lit "b1")
      (IBossScraper.db
         (fst (fst (IBossScraper.for_agencies Sample.W Sample.everything
                      1 (lit "A") [Sample.entry (lit "b1") None]
                      (IBossScraper.init Sample.W Sample.db1) 0 []))))
    = [row]
    /\ Database.a_agency_url row = Some NA
    /\ Database.a_agency_desc row = Some NA
    /\ Database.a_agency_idx row = None.
Proof.
  destruct (proj2 (sentinel_degradation Sample.W Sample.everything
                     1 (lit "A") (Sample.entry (lit "b1") None) []
                     (IBossScraper.init Sample.W Sample.db1) 0 []
                     eq_refl
                     ltac:(discriminate)
                     ltac:(simpl; repeat constructor; simpl; tauto))
                  (Sample.text_elem (lit "b1")) (lit "b1") None None None
                  eq_refl eq_refl eq_refl eq_refl eq_refl
                  ltac:(discriminate) ltac:(discriminate))
    as [x [row [Hrun [Hrow [Hu [_ [Hd Hi]]]]]]].
  exists row. rewrite Hrun. cbn [IBossScraper.for_agencies fst].
  split; [exact Hrow|].
  split; [exact (Hu eq_refl)|].
  split; [exact (Hd eq_refl)|].
  exact (proj1 (Hi eq_refl)).
Defined.

(** C8 (as stated) fails for the name: an entry in which no name
    selector matches is abandoned, and nothing is stored for it. *)
Lemma nameless_entry_abandoned :
  IBossScraper.name_elem Sample.nameless = Ok None
  /\ inner_html Sample.nameless = Ok []
  /\ IBossScraper.for_agencies Sample.W Sample.everything 1 (lit "A")
       [Sample.nameless] (IBossScraper.init Sample.W Sample.db1) 0 []
     = (IBossScraper.init Sample.W Sample.db1, 0, []).
Proof. repeat split. Qed.

(* ------------------------------------------------------------------ *)
(** ** The page loop *)

Section Listing_loop.
Import IBossScraper.
Variables (W : world) (S : site) (C : config).

Lemma persist_categories cid cname x s :
  Database.categories (db (fst (persist W cid cname x s)))
  = Database.categories (db s).
Proof.
  unfold persist, Database.insert_agency.
  destruct (find _ (Database.agencies (db s)));
    cbn [fst db update_status put_db];
    rewrite (proj1 (proj2 (update_scraping_status_rows _ _ _ _)));
    reflexivity.
Qed.

Lemma for_agencies_categories cid cname els :
  forall s k data,
    Database.categories
      (db (fst (fst (for_agencies W C cid cname els s k data))))
    = Database.categories (db s).
Proof.
  induction els as [|e els IH]; intros s k data; simpl; [reflexivity|].
  destruct (cap_reached C k); [reflexivity|].
  destruct (extract W cname e) as [[x|]|]; try apply IH.
  pose proof (persist_categories cid cname x s) as Hp.
  destruct (persist W cid cname x s) as [s' aid].
  rewrite IH. exact Hp.
Qed.

Lemma while_pages_categories cid cname l :
  forall s k data,
    Database.categories
      (db (fst (fst (while_pages W C cid cname l s k data))))
    = Database.categories (db s).
Proof.
  induction l as [p a|p a|p a l IH] using listing_induction;
    intros s k data; simpl;
    (destruct (elements_of p a) as [els|]; [|reflexivity]);
    pose proof (for_agencies_categories cid cname els s k data) as Hf;
    destruct (for_agencies W C cid cname els s k data) as [[s' k'] data'];
    simpl in Hf; destruct (cap_reached C k'); try exact Hf.
  rewrite IH. exact Hf.
Qed.

Lemma while_pages_ok cid cname l :
  queries_ok l = true ->
  forall s k data, snd (while_pages W C cid cname l s k data) = true.
Proof.
  induction l as [p a|p a|p a l IH] using listing_induction;
    intros Hq s k data; simpl in *;
    (destruct (elements_of p a) as [els|]; [|discriminate]);
    destruct (for_agencies W C cid cname els s k data) as [[s' k'] data'];
    destruct (cap_reached C k'); try reflexivity.
  apply IH; exact Hq.
Qed.
End Listing_loop.

(** C5 (as amended) -- Scraped-flag timing.  The page loop never
    writes the table of categories.  After it, the category is marked
    scraped exactly when no exception left the loop; and none does when
    no element query raises, however the loop ended: at the last page,
    at the cap, or at a fault of the page-advance step, which the loop
    treats as the last page.  When an exception left the loop the table
    of categories is as before. *)
Theorem scraped_after_loop :
  forall W S C s cid cname curl,
    let l := listing_of S (IBossScraper.absolute curl) in
    let r := IBossScraper.while_pages W C cid cname l
               (IBossScraper.navigate_to_url s curl) 0 [] in
    let s' := fst (IBossScraper.get_agencies_in_category
                     W S C s cid cname curl) in
    Database.categories (IBossScraper.db (fst (fst r)))
    = Database.categories (IBossScraper.db s)
    /\ (if snd r
        then Forall2 (fun row row' =>
                        if Database.c_id row =? cid
                        then Database.c_scraped row' = true
                        else row' = row)
                     (Database.categories (IBossScraper.db s))
                     (Database.categories (IBossScraper.db s'))
        else Database.categories (IBossScraper.db s')
             = Database.categories (IBossScraper.db s))
    /\ (queries_ok l = true -> snd r = true)
    /\ (forall p a s0 k data,
           IBossScraper.while_pages W C cid cname (Page p a Fault) s0 k data
           = IBossScraper.while_pages W C cid cname (Page p a Stop) s0 k data).
Proof.
  intros W S C s cid cname curl l r s'.
  pose proof (while_pages_categories W C cid cname l
                (IBossScraper.navigate_to_url s curl) 0 []) as Hc.
  fold r in Hc.
  change (Database.categories
            (IBossScraper.db (IBossScraper.navigate_to_url s curl)))
    with (Database.categories (IBossScraper.db s)) in Hc.
  split; [exact Hc|]. split; [|split].
  - unfold s', IBossScraper.get_agencies_in_category. fold l. fold r.
    destruct r as [[s1 data] [|]];
      cbn [fst snd IBossScraper.db IBossScraper.update_status
           IBossScraper.put_db IBossScraper.set_categories_scraped] in *.
    + rewrite (proj1 (proj2 (update_scraping_status_rows _ _ _ _))).
      cbn [Database.mark_category_scraped Database.set_categories
           Database.categories].
      rewrite Hc. apply Forall2_map_self. intro row.
      destruct (Database.c_id row =? cid); reflexivity.
    + exact Hc.
  - intro Hq. apply while_pages_ok; exact Hq.
  - intros p a s0 k data. simpl.
    destruct (IBossScraper.elements_of p a); [|reflexivity].
    destruct (IBossScraper.for_agencies _ _ _ _ _ _ _ _) as [[s1 k1] d1].
    destruct (IBossScraper.cap_reached C k1); reflexivity.
Qed.

(** C5 (as stated) fails: a category whose traversal is cut short by a
    fault of the page-advance step is marked scraped. *)
Lemma marked_after_pagination_fault :
  let s := IBossScraper.init Sample.W Sample.db2 in
  let s' := fst (IBossScraper.get_agencies_in_category
                   Sample.W Sample.site_fault Sample.everything s
                   2 (lit "B") Sample.url_B) in
  listing_of Sample.site_fault Sample.url_B
  = Page (Ok [Sample.entry (lit "b1") None]) (Ok []) Fault
  /\ map Database.c_scraped (Database.categories (IBossScraper.db s))
     = [true; false]
  /\ map Database.c_scraped (Database.categories (IBossScraper.db s'))
     = [true; true].
Proof. repeat split. Qed.

(** *** The cap *)

Lemma upto_zero evs : upto evs O = [].
Proof. destruct evs; reflexivity. Qed.

Lemma upserts_app a b : upserts (a ++ b) = (upserts a + upserts b)%nat.
Proof. unfold upserts. rewrite filter_app, length_app. reflexivity. Qed.

Lemma upserts_upto evs :
  forall n, upserts (upto evs n) = Nat.min n (upserts evs).
Proof.
  induction evs as [|e evs IH]; intros [|n]; try reflexivity.
  unfold upserts in *. simpl. destruct (is_upsert e); simpl; rewrite IH.
  - reflexivity.
  - reflexivity.
Qed.

Lemma upto_app a :
  forall b n,
    upto (a ++ b) n
    = if (upserts a <? n)%nat then a ++ upto b (n - upserts a) else upto a n.
Proof.
  induction a as [|e a IH]; intros b n.
  - destruct n; simpl; [apply upto_zero|reflexivity].
  - destruct n as [|n]; [reflexivity|].
    change (upserts (e :: a))
      with (List.length (filter is_upsert (e :: a))).
    simpl. rewrite IH. unfold upserts.
    destruct (is_upsert e); simpl.
    + destruct (Nat.ltb_spec (List.length (filter is_upsert a)) n);
        destruct (Nat.ltb_spec (Datatypes.S (List.length (filter is_upsert a)))
                               (Datatypes.S n));
        try lia; reflexivity.
    + destruct (Nat.ltb_spec (List.length (filter is_upsert a))
                             (Datatypes.S n)); reflexivity.
Qed.

Lemma upto_all a n : (upserts a < n)%nat -> upto a n = a.
Proof.
  intro H. rewrite <- (app_nil_r a) at 1. rewrite upto_app.
  apply Nat.ltb_lt in H. rewrite H. simpl. apply app_nil_r.
Qed.

Lemma upto_prefix evs : forall n, exists rest, evs = upto evs n ++ rest.
Proof.
  induction evs as [|e evs IH]; intro n; [exists []; reflexivity|].
  destruct n as [|n]; [exists (e :: evs); reflexivity|].
  simpl. destruct (IH (if is_upsert e then n else Datatypes.S n)) as [rest H].
  exists rest. rewrite <- H. reflexivity.
Qed.

Lemma upserts_page cid names :
  upserts (map (fun x => Upsert cid (IBossScraper.x_agency_name x)) names)
  = List.length names.
Proof.
  unfold upserts. induction names; simpl; [reflexivity|].
  rewrite IHnames. reflexivity.
Qed.

Lemma upserts_script W cid cname l :
  upserts (script W cid cname l) = List.length (available W cname l).
Proof.
  induction l as [p a|p a|p a l IH] using listing_induction; simpl;
    (destruct (IBossScraper.elements_of p a) as [els|]; [|reflexivity]);
    rewrite upserts_app, upserts_page, length_app; simpl;
    try reflexivity.
  change (upserts (ClickNext :: script W cid cname l))
    with (upserts (script W cid cname l)).
  rewrite IH. reflexivity.
Qed.

Section Cap.
Import IBossScraper.
Variables (W : world) (S : site) (C : config).

Lemma cap_reached_budget k :
  cap_reached C k = true <-> budget C k = Some O.
Proof.
  unfold cap_reached, budget.
  destruct (Z.ltb_spec 0 (max_agencies_per_category C)) as [Hpos|Hnot];
    simpl.
  - rewrite Z.leb_le. split; intro H.
    + f_equal. lia.
    + inversion H. lia.
  - split; discriminate.
Qed.

Lemma budget_next k :
  cap_reached C k = false ->
  forall e evs, cut (e :: evs) (budget C k)
                = e :: cut evs (budget C (if is_upsert e then k + 1 else k)).
Proof.
  intros H e evs.
  assert (Hb : budget C k <> Some O).
  { intro Hb. apply cap_reached_budget in Hb. congruence. }
  unfold budget in *.
  destruct (0 <? max_agencies_per_category C); simpl.
  - destruct (Z.to_nat (max_agencies_per_category C - k)) as [|m] eqn:E;
      [congruence|].
    simpl. do 2 f_equal. destruct (is_upsert e); lia.
  - destruct (is_upsert e); reflexivity.
Qed.

Lemma persist_trace cid cname x s :
  trace (fst (persist W cid cname x s))
  = trace s ++ [Upsert cid (x_agency_name x)].
Proof.
  unfold persist.
  destruct (Database.insert_agency _ _ _ _ _ _ _ _ _ _ _); reflexivity.
Qed.

Lemma for_agencies_script cid cname els :
  forall s k data,
    let r := for_agencies W C cid cname els s k data in
    let done :=
      cut (map (fun x => Upsert cid (x_agency_name x))
               (extractable W cname els))
          (budget C k) in
    trace (fst (fst r)) = trace s ++ done
    /\ snd (fst r) = k + Z.of_nat (upserts done)
    /\ List.length (snd r) = (List.length data + upserts done)%nat.
Proof.
  induction els as [|e els IH]; intros s k data; simpl.
  - assert (E : cut [] (budget C k) = [])
      by (destruct (budget C k); reflexivity).
    rewrite E. simpl. rewrite app_nil_r. repeat split; unfold upserts;
      simpl; lia.
  - destruct (cap_reached C k) eqn:Hcap.
    + apply cap_reached_budget in Hcap. rewrite Hcap. simpl.
      rewrite upto_zero. rewrite app_nil_r. repeat split;
        unfold upserts; simpl; lia.
    + destruct (extract W cname e) as [[x|]|]; try apply IH.
      pose proof (persist_trace cid cname x s) as Ht.
      destruct (persist W cid cname x s) as [s' aid]. simpl in Ht.
      simpl map. rewrite (budget_next k Hcap). simpl is_upsert.
      destruct (IH s' (k + 1) (data ++ [(aid, x)])) as [H1 [H2 H3]].
      rewrite H1, H2, H3, Ht, <- app_assoc, length_app.
      unfold upserts. simpl. repeat split; lia.
Qed.

Lemma while_pages_script cid cname l :
  forall s k data,
    let r := while_pages W C cid cname l s k data in
    let done := cut (script W cid cname l) (budget C k) in
    trace (fst (fst r)) = trace s ++ done
    /\ (snd r = true ->
        List.length (snd (fst r)) = (List.length data + upserts done)%nat).
Proof.
  assert (page : forall p a next s k data,
             (forall l', next = Click l' ->
                forall s k data,
                  let r := while_pages W C cid cname l' s k data in
                  let done := cut (script W cid cname l') (budget C k) in
                  trace (fst (fst r)) = trace s ++ done
                  /\ (snd r = true ->
                      List.length (snd (fst r))
                      = (List.length data + upserts done)%nat)) ->
             let r := while_pages W C cid cname (Page p a next) s k data in
             let done := cut (script W cid cname (Page p a next))
                             (budget C k) in
             trace (fst (fst r)) = trace s ++ done
             /\ (snd r = true ->
                 List.length (snd (fst r))
                 = (List.length data + upserts done)%nat)).
  { intros p a next s k data Hnext. simpl.
    destruct (elements_of p a) as [els|].
    2:{ simpl. assert (E : cut [] (budget C k) = [])
          by (destruct (budget C k); reflexivity).
        rewrite E, app_nil_r. split; [reflexivity|discriminate]. }
    destruct (for_agencies_script cid cname els s k data) as [H1 [H2 H3]].
    destruct (for_agencies W C cid cname els s k data)
      as [[s1 k1] data1] eqn:Ef.
    simpl in H1, H2, H3.
    set (ps := map (fun x => Upsert cid (x_agency_name x))
                   (extractable W cname els)) in *.
    destruct (cap_reached C k1) eqn:Hcap.
    - (* the cap is reached on this page *)
      apply cap_reached_budget in Hcap.
      assert (E : forall t, cut (ps ++ t) (budget C k)
                            = cut ps (budget C k)).
      { intro t. unfold budget in *.
        destruct (0 <? max_agencies_per_category C); [|discriminate].
        simpl in *. rewrite upto_app.
        rewrite upserts_upto in H2.
        destruct (Nat.ltb_spec (upserts ps)
                    (Z.to_nat (max_agencies_per_category C - k)));
          [|reflexivity].
        inversion Hcap. lia. }
      simpl. rewrite E. split; [exact H1|intros _; exact H3].
    - (* the page is done below the cap *)
      assert (Hb : budget C k1 <> Some O).
      { intro Hb. apply cap_reached_budget in Hb. congruence. }
      assert (All : cut ps (budget C k) = ps).
      { unfold budget in *.
        destruct (0 <? max_agencies_per_category C); [|reflexivity].
        simpl in *. rewrite upserts_upto in H2.
        apply upto_all.
        destruct (Nat.le_gt_cases
                    (Z.to_nat (max_agencies_per_category C - k))
                    (upserts ps)); [|assumption].
        exfalso. apply Hb. f_equal. lia. }
      rewrite All in *.
      assert (E : forall t, cut (ps ++ t) (budget C k)
                            = ps ++ cut t (budget C k1)).
      { intro t. unfold budget in *.
        destruct (0 <? max_agencies_per_category C); [|reflexivity].
        simpl in *. rewrite upto_app.
        destruct (Nat.ltb_spec (upserts ps)
                    (Z.to_nat (max_agencies_per_category C - k))).
        - do 2 f_equal. lia.
        - exfalso. apply Hb. f_equal. lia. }
      rewrite E.
      assert (E0 : cut [] (budget C k1) = [])
        by (destruct (budget C k1); reflexivity).
      destruct next as [ | | l'].
      + simpl. rewrite E0, app_nil_r.
        split; [exact H1|intros _; exact H3].
      + simpl. rewrite E0, app_nil_r.
        split; [exact H1|intros _; exact H3].
      + destruct (Hnext l' eq_refl (log s1 ClickNext) k1 data1) as [I1 I2].
        rewrite (budget_next k1 Hcap). simpl is_upsert. cbv iota.
        split.
        * rewrite I1. cbn [trace log]. rewrite H1, <- !app_assoc.
          reflexivity.
        * intro Hok. rewrite (I2 Hok), H3, upserts_app.
          change (upserts (ClickNext :: cut (script W cid cname l')
                                            (budget C k1)))
            with (upserts (cut (script W cid cname l') (budget C k1))).
          lia. }
  induction l as [p a|p a|p a l IH] using listing_induction;
    intros s k data; apply page; intros l' Hl'; try discriminate.
  inversion Hl'; subst l'. exact IH.
Qed.

Lemma get_agencies_in_category_script s cid cname curl :
  let r := get_agencies_in_category W S C s cid cname curl in
  let done := cut (script W cid cname (listing_of S (absolute curl)))
                  (budget C 0) in
  trace (fst r) = trace s ++ Goto (absolute curl) :: done
  /\ (queries_ok (listing_of S (absolute curl)) = true ->
      List.length (snd r) = upserts done).
Proof.
  unfold get_agencies_in_category.
  destruct (while_pages_script cid cname (listing_of S (absolute curl))
              (navigate_to_url s curl) 0 []) as [H1 H2].
  pose proof (fun Hq =>
                while_pages_ok W C cid cname (listing_of S (absolute curl))
                               Hq (navigate_to_url s curl) 0 []) as Hok.
  destruct (while_pages _ _ _ _ _ _ _ _) as [[s1 data] ok].
  simpl in H1, H2, Hok.
  destruct ok; simpl.
  - rewrite H1, <- app_assoc. split; [reflexivity|]. intros _.
    apply H2; reflexivity.
  - rewrite H1, <- app_assoc. split; [reflexivity|]. intro Hq.
    specialize (Hok Hq). discriminate.
Qed.
End Cap.

(** C3 (as amended) -- Cap enforcement.  With a cap N > 0,
    [get_agencies_in_category] does what the unlimited traversal of the
    listing does up to and including its N-th upsert, and nothing after
    it: no further entry of that page, no page advance.  So it upserts
    exactly min(N, M) agencies, M being the number of entries that can
    be read off in full over the pages of the listing (an entry without
    a name element, or on which a call raises, is skipped and does not
    count); and it returns that many when no element query raises.
    With a cap of 0 the traversal is the unlimited one. *)
Theorem cap_enforcement (W : world) (S : site) (C : IBossScraper.config)
        (s : IBossScraper.t) (cid : Z) (cname curl : pystr) :
  0 < IBossScraper.max_agencies_per_category C ->
  let l := listing_of S (IBossScraper.absolute curl) in
  let N := Z.to_nat (IBossScraper.max_agencies_per_category C) in
  let M := List.length (available W cname l) in
  let all := script W cid cname l in
  let unlimited := IBossScraper.mk_config (IBossScraper.target_categories C)
                                          0 (IBossScraper.skip_details C) in
  let r := IBossScraper.get_agencies_in_category W S C s cid cname curl in
  IBossScraper.trace (fst r)
  = IBossScraper.trace s ++ Goto (IBossScraper.absolute curl) :: upto all N
  /\ upserts (upto all N) = Nat.min N M
  /\ (exists rest, all = upto all N ++ rest)
  /\ (queries_ok l = true -> List.length (snd r) = Nat.min N M)
  /\ IBossScraper.trace
       (fst (IBossScraper.get_agencies_in_category
               W S unlimited s cid cname curl))
     = IBossScraper.trace s ++ Goto (IBossScraper.absolute curl) :: all
  /\ upserts all = M.
Proof.
  intros Hpos l N M all unlimited r.
  destruct (get_agencies_in_category_script W S C s cid cname curl)
    as [Ht Hlen].
  destruct (get_agencies_in_category_script W S unlimited s cid cname curl)
    as [Hu _].
  fold l in Ht, Hlen, Hu. fold all in Ht, Hlen, Hu. fold r in Ht, Hlen.
  assert (B : budget C 0 = Some N).
  { unfold budget. apply Z.ltb_lt in Hpos. rewrite Hpos.
    unfold N. rewrite Z.sub_0_r. reflexivity. }
  rewrite B in Ht, Hlen. simpl in Ht, Hlen.
  assert (Hm : upserts (upto all N) = Nat.min N M).
  { rewrite upserts_upto. unfold all, M. rewrite upserts_script.
    reflexivity. }
  split; [exact Ht|]. split; [exact Hm|].
  split; [apply upto_prefix|].
  split; [intro Hq; rewrite (Hlen Hq); exact Hm|].
  split; [exact Hu|].
  apply upserts_script.
Qed.

Lemma cap_enforcement_witness :
  IBossScraper.trace
    (fst (IBossScraper.get_agencies_in_category
            Sample.W Sample.site1 (Sample.at_most 2)
            (IBossScraper.init Sample.W Sample.db2) 2 (lit "B") Sample.url_B))
  = [Goto Sample.url_B; Upsert 2 (lit "b1"); Upsert 2 (lit "b2")]
  /\ script Sample.W 2 (lit "B") Sample.listing_B
     = [Upsert 2 (lit "b1"); Upsert 2 (lit "b2"); ClickNext;
        Upsert 2 (lit "b3")].
Proof.
  split; [|reflexivity].
  exact (proj1 (cap_enforcement Sample.W Sample.site1 (Sample.at_most 2)
                  (IBossScraper.init Sample.W Sample.db2) 2 (lit "B")
                  Sample.url_B eq_refl)).
Defined.

(** C3 (as stated) fails on the count: a page shows three entries for
    two agencies, the first of them twice; under a cap of 2 the
    traversal stops after the second entry and one agency is stored,
    not two. *)
Lemma cap_counts_upserts_not_agencies :
  let s := fst (IBossScraper.get_agencies_in_category
                  Sample.W Sample.site_twice (Sample.at_most 2)
                  (IBossScraper.init Sample.W Sample.db0)
                  1 (lit "A") Sample.url_A) in
  entries Sample.listing_twice = 3%nat
  /\ map IBossScraper.x_agency_name
         (available Sample.W (lit "A") Sample.listing_twice)
     = [lit "acme"; lit "acme"; lit "beta"]
  /\ map Database.a_agency_name (Database.agencies (IBossScraper.db s))
     = [lit "acme"]
  /\ List.length (Database.agencies (IBossScraper.db s)) <> Nat.min 2 3
  /\ List.length (Database.agencies (IBossScraper.db s)) <> Nat.min 2 2.
Proof. repeat split; discriminate. Qed.

(* ------------------------------------------------------------------ *)
(** ** The run *)

Section Run_trace.
Import IBossScraper.
Variables (W : world) (S : site) (C : config).





End Run_trace.

(** *** The [scraped] flags are not read *)

Lemma find_map_same {A : Type} (p : A -> bool) (f : A -> A) (l : list A) :
  (forall r, p (f r) = p r) ->
  find p (map f l) = option_map f (find p l).
Proof.
  intro H; induction l as [|a l IH]; simpl; [reflexivity|].
  rewrite H. destruct (p a); [reflexivity|exact IH].
Qed.






Section Alike.
Import IBossScraper.
Variables (W : world) (S : site) (C : config).






















End Alike.




(* ------------------------------------------------------------------ *)
(** ** Further properties of the store *)

Lemma fresh_below_next ids n :
  fresh_below ids n -> fresh_below (ids ++ [n + 1]) (n + 1).
Proof.
  intros [Hn Hb]. split.
  - apply NoDup_app; [exact Hn | repeat constructor; intros [] | ].
    intros x Hx [<-|[]]. rewrite Forall_forall in Hb.
    specialize (Hb _ Hx). lia.
  - apply Forall_app. split.
    + eapply Forall_impl; [|exact Hb]. simpl; intros; lia.
    + repeat constructor. lia.
Qed.

Lemma map_id_same {A : Type} (id : A -> Z) (f : A -> A) (l : list A) :
  (forall r, id (f r) = id r) -> map id (map f l) = map id l.
Proof. intro H. rewrite map_map. apply map_ext. exact H. Qed.

Lemma insert_category_ids db now name link count :
  ids_ok db -> ids_ok (fst (Database.insert_category db now name link count)).
Proof.
  intros [Hc [Ha Hs]]. unfold ids_ok, Database.insert_category.
  destruct (find _ (Database.categories db)) as [e|]; simpl.
  - rewrite map_id_same; [auto|].
    intro r. destruct (_ =? _); reflexivity.
  - rewrite map_app. simpl. split; [apply fresh_below_next; exact Hc|auto].
Qed.

Lemma insert_agency_ids db now cid cname name url logo desc idx durl path :
  ids_ok db ->
  ids_ok (fst (Database.insert_agency db now cid cname name
                                      url logo desc idx durl path)).
Proof.
  intros [Hc [Ha Hs]]. unfold ids_ok, Database.insert_agency.
  destruct (find _ (Database.agencies db)) as [e|]; simpl.
  - rewrite map_id_same; [auto|].
    intro r. destruct (Database.a_id r =? _); reflexivity.
  - rewrite map_app. simpl.
    split; [exact Hc|]. split; [apply fresh_below_next; exact Ha|exact Hs].
Qed.

Lemma update_agency_detail_ids db now aid d :
  ids_ok db -> ids_ok (Database.update_agency_detail db now aid d).
Proof.
  intros [Hc [Ha Hs]]. unfold ids_ok. simpl.
  rewrite map_id_same; [auto|].
  intro r. destruct (Database.a_id r =? aid); reflexivity.
Qed.

Lemma mark_category_scraped_ids db now cid :
  ids_ok db -> ids_ok (Database.mark_category_scraped db now cid).
Proof.
  intros [Hc [Ha Hs]]. unfold ids_ok. simpl.
  rewrite map_id_same; [auto|].
  intro r. destruct (Database.c_id r =? cid); reflexivity.
Qed.

Lemma start_scraping_session_ids db now :
  ids_ok db -> ids_ok (fst (Database.start_scraping_session db now)).
Proof.
  intros [Hc [Ha Hs]]. unfold ids_ok. simpl. rewrite map_app. simpl.
  split; [exact Hc|]. split; [exact Ha|apply fresh_below_next; exact Hs].
Qed.

Lemma update_scraping_status_ids db now sid a :
  ids_ok db -> ids_ok (Database.update_scraping_status db now sid a).
Proof.
  intros [Hc [Ha Hs]]. unfold ids_ok.
  destruct (update_scraping_status_rows db now sid a) as [E1 [E2 E3]].
  rewrite E1, E2, E3.
  assert (Eq : Database.seq_categories
                 (Database.update_scraping_status db now sid a)
               = Database.seq_categories db
               /\ Database.seq_agencies
                    (Database.update_scraping_status db now sid a)
                  = Database.seq_agencies db
               /\ Database.seq_scraping_status
                    (Database.update_scraping_status db now sid a)
                  = Database.seq_scraping_status db).
  { unfold Database.update_scraping_status.
    destruct (Database.update_fields a); repeat split. }
  destruct Eq as [-> [-> ->]].
  rewrite map_id_same; [auto|].
  intro r. destruct (Database.s_id r =? sid); [|reflexivity].
  exact (proj1 (updated_columns now a r)).
Qed.

Lemma reachable_ids_ok db : reachable db -> ids_ok db.
Proof.
  induction 1.
  - repeat split; constructor.
  - apply insert_category_ids; assumption.
  - apply insert_agency_ids; assumption.
  - apply update_agency_detail_ids; assumption.
  - apply mark_category_scraped_ids; assumption.
  - apply start_scraping_session_ids; assumption.
  - apply update_scraping_status_ids; assumption.
Qed.

(* ------------------------------------------------------------------ *)
(** ** Invariants of a run *)

(** A property of the scraper that each of its steps keeps is kept by
    every method, and holds right before the final status is written. *)
Section Invariant.
Import IBossScraper.
Variables (W : world) (S : site) (C : config).
Variable I : t -> Prop.

Hypothesis I_goto : forall s u, I s -> I (log s (Goto u)).
Hypothesis I_click : forall s, I s -> I (log s ClickNext).
Hypothesis I_category :
  forall s name link count,
    I s ->
    I (put_db s (fst (Database.insert_category (db s) (now W s)
                                               name link count))).
Hypothesis I_categories_total :
  forall s n,
    I s ->
    I (update_status W (set_categories_total s n)
         (Database.mk_args (Some n) None None None None None None)).
Hypothesis I_persist :
  forall s cid cname x, I s -> I (fst (persist W cid cname x s)).
Hypothesis I_mark :
  forall s cid,
    I s ->
    I (update_status W
         (set_categories_scraped
            (put_db s (Database.mark_category_scraped (db s) (now W s) cid))
            (categories_scraped s + 1))
         (Database.mk_args None (Some (categories_scraped s + 1)) None
                           None None None None)).
Hypothesis I_agencies_total :
  forall s n,
    I s ->
    I (update_status W (set_agencies_total s n)
         (Database.mk_args None None (Some n) None None None None)).
Hypothesis I_details_total :
  forall s n,
    I s ->
    I (update_status W (set_details_total s n)
         (Database.mk_args None None None None (Some n) None None)).
Hypothesis I_detail :
  forall s aid d,
    I s ->
    I (update_status W
         (set_details_scraped
            (put_db s (Database.update_agency_detail (db s) (now W s) aid
                                                     (Some d)))
            (details_scraped s + 1))
         (Database.mk_args None None None None None
                           (Some (details_scraped s + 1)) None)).

Lemma for_agencies_inv cid cname els :
  forall s k data,
    I s -> I (fst (fst (for_agencies W C cid cname els s k data))).
Proof.
  induction els as [|e els IH]; intros s k data H; simpl; [exact H|].
  destruct (cap_reached C k); [exact H|].
  destruct (extract W cname e) as [[x|]|]; try (apply IH; exact H).
  pose proof (I_persist s cid cname x H) as Hp.
  destruct (persist W cid cname x s) as [s' aid]. apply IH; exact Hp.
Qed.

Lemma while_pages_inv cid cname l :
  forall s k data,
    I s -> I (fst (fst (while_pages W C cid cname l s k data))).
Proof.
  induction l as [p a|p a|p a l IH] using listing_induction;
    intros s k data H; simpl;
    (destruct (elements_of p a) as [els|]; [|exact H]);
    pose proof (for_agencies_inv cid cname els s k data H) as Hf;
    destruct (for_agencies W C cid cname els s k data) as [[s' k'] data'];
    simpl in Hf; destruct (cap_reached C k'); try exact Hf.
  apply IH, I_click; exact Hf.
Qed.

Lemma get_agencies_in_category_inv s cid cname curl :
  I s -> I (fst (get_agencies_in_category W S C s cid cname curl)).
Proof.
  intro H. unfold get_agencies_in_category.
  pose proof (while_pages_inv cid cname (listing_of S (absolute curl))
                (navigate_to_url s curl) 0 [] (I_goto s _ H)) as Hw.
  destruct (while_pages _ _ _ _ _ _ _ _) as [[s' data] [|]]; simpl in *.
  - exact (I_mark s' cid Hw).
  - exact Hw.
Qed.

Lemma for_categories_inv els :
  forall s data, I s -> I (fst (for_categories W els s data)).
Proof.
  induction els as [|e els IH]; intros s data H; simpl; [exact H|].
  destruct (category_of e) as [[[name link] count]|]; [|apply IH; exact H].
  pose proof (I_category s name link count H) as Hc.
  destruct (Database.insert_category _ _ _ _ _) as [d cid].
  apply IH. exact Hc.
Qed.

Lemma get_categories_inv s : I s -> I (fst (get_categories W S s)).
Proof.
  intro H. unfold get_categories.
  destruct (main_page S) as [els|]; [|exact (I_goto s _ H)].
  apply for_categories_inv.
  exact (I_categories_total _ (Z.of_nat (List.length els)) (I_goto s _ H)).
Qed.

Lemma get_agency_detail_inv s aid name idx url :
  I s -> I (fst (get_agency_detail W S s aid name idx url)).
Proof.
  intro H. unfold get_agency_detail.
  destruct url as [[|c u]|]; try exact H.
  destruct (navigated _); [|exact (I_goto s _ H)].
  destruct (detail_desc_of _) as [[d|]|]; try exact (I_goto s _ H).
  exact (I_detail _ aid d (I_goto s _ H)).
Qed.

Lemma for_details_inv agencies :
  forall s, I s -> I (for_details W S agencies s).
Proof.
  induction agencies as [|[[[aid name] idx] url] rest IH]; intros s H;
    simpl; [exact H|].
  apply IH, get_agency_detail_inv; exact H.
Qed.

Lemma scrape_all_agency_details_inv s :
  I s -> I (scrape_all_agency_details W S s).
Proof.
  intro H. unfold scrape_all_agency_details.
  destruct (Database.get_agencies_without_details (db s)) as [|a rest];
    [exact H|].
  apply for_details_inv.
  exact (I_details_total s (Z.of_nat (List.length (a :: rest))) H).
Qed.

Lemma for_listings_inv categories :
  forall s, I s -> I (for_listings W S C categories s).
Proof.
  induction categories as [|c rest IH]; intros s H; simpl; [exact H|].
  apply IH, get_agencies_in_category_inv; exact H.
Qed.

(** The run is a body that keeps the invariant followed by the write of
    the final status. *)
Lemma scrape_all_inv s :
  I s ->
  exists s1,
    I s1
    /\ scrape_all W S C s
       = set_status W s1 (verdict_status (verdict W S C s)).
Proof.
  intro H. unfold scrape_all, verdict.
  pose proof (get_categories_inv s H) as Hg.
  destruct (get_categories W S s) as [s1 cats]; simpl in Hg |- *.
  destruct cats as [|c cats]; [exists s1; split; [exact Hg|reflexivity]|].
  destruct (sum_counts W (select C (c :: cats))) as [total|];
    [|exists s1; split; [exact Hg|reflexivity]].
  pose proof (for_listings_inv (select C (c :: cats)) _
                (I_agencies_total s1 total Hg)) as Hl.
  destruct (skip_details C).
  - eexists; split; [exact Hl|]. destruct (export_to_csv W); reflexivity.
  - eexists; split; [exact (scrape_all_agency_details_inv _ Hl)|].
    destruct (export_to_csv W); reflexivity.
Qed.

(** With [skip_details] the body never runs the detail pass. *)
Lemma scrape_all_inv_skipping s :
  skip_details C = true ->
  I s ->
  exists s1,
    I s1
    /\ scrape_all W S C s
       = set_status W s1 (verdict_status (verdict W S C s)).
Proof.
  intros Hskip H. unfold scrape_all, verdict.
  pose proof (get_categories_inv s H) as Hg.
  destruct (get_categories W S s) as [s1 cats]; simpl in Hg |- *.
  destruct cats as [|c cats]; [exists s1; split; [exact Hg|reflexivity]|].
  destruct (sum_counts W (select C (c :: cats))) as [total|];
    [|exists s1; split; [exact Hg|reflexivity]].
  pose proof (for_listings_inv (select C (c :: cats)) _
                (I_agencies_total s1 total Hg)) as Hl.
  rewrite Hskip.
  eexists; split; [exact Hl|]. destruct (export_to_csv W); reflexivity.
Qed.
End Invariant.

(** A property of the store that each writing method keeps is kept by
    a run. *)
Section Store_invariant.
Import IBossScraper.
Variables (W : world) (S : site) (C : config).
Variable P : Database.t -> Prop.

Hypothesis P_insert_category :
  forall db now name link count,
    P db -> P (fst (Database.insert_category db now name link count)).
Hypothesis P_insert_agency :
  forall db now cid cname name url logo desc idx durl path,
    P db ->
    P (fst (Database.insert_agency db now cid cname name
                                   url logo desc idx durl path)).
Hypothesis P_mark_category_scraped :
  forall db now cid, P db -> P (Database.mark_category_scraped db now cid).
Hypothesis P_update_scraping_status :
  forall db now sid a,
    P db -> P (Database.update_scraping_status db now sid a).
Hypothesis P_update_agency_detail :
  forall db now aid d,
    P db -> P (Database.update_agency_detail db now aid (Some d)).

Lemma persist_keeps s cid cname x :
  P (db s) -> P (db (fst (persist W cid cname x s))).
Proof.
  intro H. unfold persist.
  destruct (Database.insert_agency _ _ _ _ _ _ _ _ _ _ _) as [d aid] eqn:E.
  simpl. apply P_update_scraping_status.
  change d with (fst (d, aid)). rewrite <- E. apply P_insert_agency; exact H.
Qed.

Lemma scrape_all_keeps s : P (db s) -> P (db (scrape_all W S C s)).
Proof.
  intro H.
  assert (Hinv : exists s1,
             P (db s1)
             /\ scrape_all W S C s
                = set_status W s1 (verdict_status (verdict W S C s))).
  { apply (scrape_all_inv W S C (fun s => P (db s)));
      try exact H; simpl; intros; auto using persist_keeps. }
  destruct Hinv as [s1 [H1 ->]]. apply P_update_scraping_status; exact H1.
Qed.

Lemma scrape_all_keeps_skipping s :
  skip_details C = true -> P (db s) -> P (db (scrape_all W S C s)).
Proof.
  intros Hskip H.
  assert (Hinv : exists s1,
             P (db s1)
             /\ scrape_all W S C s
                = set_status W s1 (verdict_status (verdict W S C s))).
  { apply (scrape_all_inv_skipping W S C (fun s => P (db s)));
      try exact H; try exact Hskip; simpl; intros;
      auto using persist_keeps. }
  destruct Hinv as [s1 [H1 ->]]. apply P_update_scraping_status; exact H1.
Qed.
End Store_invariant.

(* ------------------------------------------------------------------ *)
(** ** Writing and reading back *)

Lemma find_first_by_id {A : Type} (id : A -> Z) (l : list A) (e : A) :
  NoDup (map id l) -> In e l -> find (fun r => id r =? id e) l = Some e.
Proof.
  induction l as [|a l IH]; simpl; intros N Hin; [contradiction|].
  inversion N as [|? ? Hnot N']; subst.
  destruct (id a =? id e) eqn:E.
  - destruct Hin as [->|Hin]; [reflexivity|].
    exfalso. apply Hnot. apply Z.eqb_eq in E. rewrite E.
    apply in_map; exact Hin.
  - destruct Hin as [->|Hin]; [rewrite Z.eqb_refl in E; discriminate|].
    apply IH; assumption.
Qed.

Lemma find_append {A : Type} (p : A -> bool) (l l' : list A) :
  find p (l ++ l')
  = match find p l with
    | Some x => Some x
    | None => find p l'
    end.
Proof.
  induction l as [|a l IH]; simpl; [reflexivity|].
  destruct (p a); [reflexivity|exact IH].
Qed.

Lemma find_above {A : Type} (id : A -> Z) (l : list A) (n : Z) :
  Forall (fun i => i <= n) (map id l) ->
  find (fun r => id r =? n + 1) l = None.
Proof.
  induction l as [|a l IH]; simpl; intro H; [reflexivity|].
  inversion H; subst.
  destruct (Z.eqb_spec (id a) (n + 1)); [lia|]. apply IH; assumption.
Qed.

(** X1 -- The surrogate ids stay sound over a session: when the ids of
    the file are distinct and within their sequences, they still are
    after the constructor has recorded a session and [scrape_all] has
    run. *)
Theorem ids_ok_after_run (W : world) (S : site) (C : IBossScraper.config)
        (d : Database.t) :
  ids_ok d ->
  ids_ok (IBossScraper.db
            (IBossScraper.scrape_all W S C (IBossScraper.init W d))).
Proof.
  intro H.
  apply scrape_all_keeps;
    auto using insert_category_ids, insert_agency_ids,
      mark_category_scraped_ids, update_scraping_status_ids,
      update_agency_detail_ids.
  unfold IBossScraper.init.
  pose proof (start_scraping_session_ids d (clock W 0) H) as Hs.
  destruct (Database.start_scraping_session d (clock W 0)) as [d' sid].
  exact Hs.
Qed.

Lemma sample_ids_ok : ids_ok Sample.db2.
Proof.
  unfold ids_ok, fresh_below; simpl.
  repeat split; repeat constructor; simpl; try lia; intuition discriminate.
Qed.

Lemma ids_ok_after_run_witness :
  ids_ok (IBossScraper.db
            (IBossScraper.scrape_all Sample.W Sample.site1 Sample.everything
               (IBossScraper.init Sample.W Sample.db2))).
Proof.
  apply ids_ok_after_run.
  unfold ids_ok, fresh_below; simpl.
  repeat split; repeat constructor; simpl; try lia; intuition discriminate.
Defined.

(** X2 -- Insert, then look up.  In a store with sound ids,
    [get_agency_by_id] on the id that [insert_agency] returns gives
    that id with the name, idx and detail URL just passed; and the
    category's listing holds the agency with the URL, logo and
    description just passed. *)
Theorem insert_agency_then_lookup
        (db : Database.t) (now : timestamp) (cid : Z)
        (cname name : pystr) (url logo desc idx durl path : option pystr) :
  ids_ok db ->
  let r := Database.insert_agency db now cid cname name
                                  url logo desc idx durl path in
  Database.get_agency_by_id (fst r) (snd r) = Some (snd r, name, idx, durl)
  /\ exists detail_desc,
      In (name, url, logo, desc, detail_desc)
         (Database.get_agencies_by_category (fst r) cid).
Proof.
  intros [_ [[Hn Hb] _]] r. unfold r, Database.insert_agency,
    Database.get_agency_by_id, Database.get_agencies_by_category.
  destruct (find _ (Database.agencies db)) as [e|] eqn:F; simpl.
  - apply find_some in F. destruct F as [Hin Hkey].
    apply andb_true_iff in Hkey. destruct Hkey as [Hc Hname].
    apply pystr_eqb_eq in Hname.
    split.
    + rewrite (find_map_same (fun r => Database.a_id r =? Database.a_id e)).
      2:{ intro r0. destruct (Database.a_id r0 =? Database.a_id e) eqn:E;
            simpl; rewrite ?E; reflexivity. }
      rewrite (find_first_by_id Database.a_id _ e Hn Hin). simpl.
      rewrite Z.eqb_refl. unfold Database.pending_columns; simpl.
      rewrite Hname. reflexivity.
    + exists (Database.a_agency_detail_desc e).
      apply in_map_iff.
      exists (Database.refresh now url logo path desc idx durl e).
      split; [unfold Database.listed_columns; simpl; rewrite Hname;
              reflexivity|].
      apply filter_In. split; [|exact Hc].
      apply in_map_iff. exists e. rewrite Z.eqb_refl. auto.
  - split.
    + rewrite find_append, (find_above Database.a_id _ _ Hb). simpl.
      rewrite Z.eqb_refl. reflexivity.
    + exists None. apply in_map_iff.
      eexists; split; [|apply filter_In; split;
                        [apply in_or_app; right; left; reflexivity
                        |simpl; apply Z.eqb_refl]].
      reflexivity.
Qed.

Lemma insert_agency_then_lookup_witness :
  Database.get_agency_by_id
    (fst (Database.insert_agency Sample.db2 9%N 2 (lit "B") (lit "b1")
            (Some NA) (Some NA) (Some NA) (Some (lit "7")) None None))
    2
  = Some (2, lit "b1", Some (lit "7"), None).
Proof.
  exact (proj1 (insert_agency_then_lookup Sample.db2 9%N 2 (lit "B")
                  (lit "b1") (Some NA) (Some NA) (Some NA)
                  (Some (lit "7")) None None sample_ids_ok)).
Defined.

Lemma filter_partition_length {A : Type} (p : A -> bool) (l : list A) :
  List.length l
  = (List.length (filter p l)
     + List.length (filter (fun x => negb (p x)) l))%nat.
Proof.
  induction l as [|a l IH]; simpl; [reflexivity|].
  destruct (p a); simpl; lia.
Qed.

(** X3 -- The read queries agree.  The agencies counted are those
    counted as detailed together with those that
    [get_agencies_without_details] returns, and as many as
    [get_all_agencies] returns; every row listed for a category by
    [get_agencies_by_category] is a row of [get_all_agencies]; and
    [get_unscraped_categories] returns the rows of [get_categories]
    whose flag is not set, without the flag. *)
Theorem read_queries_agree :
  forall db,
    Database.count_agencies db
    = Database.count_agencies_with_details db
      + Z.of_nat (List.length (Database.get_agencies_without_details db))
    /\ Database.count_agencies db
       = Z.of_nat (List.length (Database.get_all_agencies db))
    /\ (forall cid row,
           In row (Database.get_agencies_by_category db cid) ->
           exists cname, In (cname, row) (Database.get_all_agencies db))
    /\ Database.get_unscraped_categories db
       = map fst (filter (fun c => negb (snd c))
                         (Database.get_categories db)).
Proof.
  intro db. split; [|split; [|split]].
  - unfold Database.count_agencies,
      Database.count_agencies_with_details,
      Database.get_agencies_without_details.
    rewrite length_map.
    rewrite (filter_partition_length Database.a_detailed_scraped
               (Database.agencies db)) at 1.
    lia.
  - unfold Database.count_agencies, Database.get_all_agencies.
    rewrite length_map. reflexivity.
  - intros cid row H. unfold Database.get_agencies_by_category in H.
    apply in_map_iff in H. destruct H as [r [E H]].
    apply filter_In in H. destruct H as [H _].
    exists (Database.a_category_name r). subst row.
    unfold Database.get_all_agencies.
    apply (in_map (fun r => (Database.a_category_name r,
                             Database.listed_columns r))).
    exact H.
  - unfold Database.get_unscraped_categories, Database.get_categories.
    induction (Database.categories db) as [|r l IH]; simpl; [reflexivity|].
    destruct (Database.c_scraped r); simpl; rewrite IH; reflexivity.
Qed.

Lemma same_id_same_row {A : Type} (id : A -> Z) (l : list A) (a b : A) :
  NoDup (map id l) -> In a l -> In b l -> id a = id b -> a = b.
Proof.
  intros N Ha Hb E.
  pose proof (find_first_by_id id l a N Ha) as Fa.
  pose proof (find_first_by_id id l b N Hb) as Fb.
  rewrite E in Fa. congruence.
Qed.

(** X4 -- An upsert stays within its category: in a store with sound
    ids, [insert_agency] into one category leaves what
    [get_agencies_by_category] returns for every other category as it
    was. *)
Theorem insert_agency_other_category
        (db : Database.t) (now : timestamp) (cid other : Z)
        (cname name : pystr) (url logo desc idx durl path : option pystr) :
  ids_ok db ->
  other <> cid ->
  Database.get_agencies_by_category
    (fst (Database.insert_agency db now cid cname name
                                 url logo desc idx durl path)) other
  = Database.get_agencies_by_category db other.
Proof.
  intros [_ [[Hn _] _]] Hneq.
  unfold Database.insert_agency, Database.get_agencies_by_category.
  destruct (find _ (Database.agencies db)) as [e|] eqn:F; simpl.
  - apply find_some in F. destruct F as [Hin Hkey].
    apply andb_true_iff in Hkey. destruct Hkey as [Hc _].
    apply Z.eqb_eq in Hc.
    rewrite (filter_map_same (fun r => Database.a_category_id r =? other)).
    2:{ intro r. destruct (Database.a_id r =? Database.a_id e); reflexivity. }
    rewrite map_map. apply map_ext_in. intros r Hr.
    apply filter_In in Hr. destruct Hr as [Hr Hcat]. apply Z.eqb_eq in Hcat.
    destruct (Z.eqb_spec (Database.a_id r) (Database.a_id e)) as [E|E];
      [|reflexivity].
    exfalso. apply Hneq.
    rewrite (same_id_same_row Database.a_id _ r e Hn Hr Hin E) in Hcat.
    congruence.
  - rewrite filter_app. simpl.
    destruct (Z.eqb_spec cid other) as [E|E]; [congruence|].
    rewrite app_nil_r. reflexivity.
Qed.

Lemma insert_agency_other_category_witness :
  Database.get_agencies_by_category
    (fst (Database.insert_agency Sample.db2 9%N 2 (lit "B") (lit "b1")
            (Some NA) (Some NA) (Some NA) None None None)) 1
  = Database.get_agencies_by_category Sample.db2 1.
Proof.
  apply insert_agency_other_category.
  - unfold ids_ok, fresh_below; simpl.
    repeat split; repeat constructor; simpl; try lia; intuition discriminate.
  - discriminate.
Defined.

(** X5 -- Flagging and the pending queries.  After
    [update_agency_detail] on an id, [get_agencies_without_details]
    returns what it returned before less the rows of that id; after
    [mark_category_scraped], [get_unscraped_categories] returns what
    it returned before less the rows of that id. *)
Theorem flagged_rows_leave_the_pending_queries :
  (forall db now aid d,
      Database.get_agencies_without_details
        (Database.update_agency_detail db now aid d)
      = filter (fun c => negb (pending_id c =? aid))
               (Database.get_agencies_without_details db))
  /\ (forall db now cid,
         Database.get_unscraped_categories
           (Database.mark_category_scraped db now cid)
         = filter (fun c => negb (unscraped_id c =? cid))
                  (Database.get_unscraped_categories db)).
Proof.
  split.
  - intros db now aid d.
    unfold Database.get_agencies_without_details,
      Database.update_agency_detail. simpl.
    induction (Database.agencies db) as [|r l IH]; simpl; [reflexivity|].
    destruct (Database.a_id r =? aid) eqn:E; simpl.
    + destruct (Database.a_detailed_scraped r); simpl;
        [exact IH|]. unfold pending_id at 1; simpl. rewrite E. simpl.
      exact IH.
    + destruct (Database.a_detailed_scraped r); simpl; [exact IH|].
      unfold pending_id at 1; simpl. rewrite E. simpl. rewrite IH.
      reflexivity.
  - intros db now cid.
    unfold Database.get_unscraped_categories,
      Database.mark_category_scraped. simpl.
    induction (Database.categories db) as [|r l IH]; simpl; [reflexivity|].
    destruct (Database.c_id r =? cid) eqn:E; simpl.
    + destruct (Database.c_scraped r); simpl;
        [exact IH|]. unfold unscraped_id at 1; simpl. rewrite E. simpl.
      exact IH.
    + destruct (Database.c_scraped r); simpl; [exact IH|].
      unfold unscraped_id at 1; simpl. rewrite E. simpl. rewrite IH.
      reflexivity.
Qed.

(** *** Rows are kept *)

Lemma Forall2_same {A : Type} (R : A -> A -> Prop) (l : list A) :
  (forall x, R x x) -> Forall2 R l l.
Proof. intro H; induction l; constructor; auto. Qed.

Lemma Forall2_through_map {A : Type} (R : A -> A -> Prop) (f : A -> A)
      (l l1 : list A) :
  (forall x y, R x y -> R x (f y)) ->
  Forall2 R l l1 -> Forall2 R l (map f l1).
Proof. intros H F; induction F; simpl; constructor; auto. Qed.

Lemma extended_same {A : Type} (R : A -> A -> Prop) (l : list A) :
  (forall x, R x x) -> extended R l l.
Proof.
  intro H. exists l, []. rewrite app_nil_r.
  split; [reflexivity|apply Forall2_same; exact H].
Qed.

Lemma extended_map {A : Type} (R : A -> A -> Prop) (f : A -> A)
      (l l' : list A) :
  (forall x y, R x y -> R x (f y)) ->
  extended R l l' -> extended R l (map f l').
Proof.
  intros H [l1 [l2 [-> F]]]. exists (map f l1), (map f l2).
  rewrite map_app. split; [reflexivity|].
  apply Forall2_through_map; assumption.
Qed.

Lemma extended_more {A : Type} (R : A -> A -> Prop) (l l' extra : list A) :
  extended R l l' -> extended R l (l' ++ extra).
Proof.
  intros [l1 [l2 [-> F]]]. exists l1, (l2 ++ extra).
  rewrite app_assoc. split; [reflexivity|exact F].
Qed.

Lemma extended_length {A : Type} (R : A -> A -> Prop) (l l' : list A) :
  extended R l l' -> (List.length l <= List.length l')%nat.
Proof.
  intros [l1 [l2 [-> F]]]. rewrite length_app.
  rewrite (Forall2_length F). lia.
Qed.

Lemma grows_insert_category db0 db now name link count :
  grows db0 db ->
  grows db0 (fst (Database.insert_category db now name link count)).
Proof.
  intros [Hc [Ha Hs]]. unfold grows, Database.insert_category.
  destruct (find _ (Database.categories db)) as [e|]; simpl.
  - split; [|auto]. apply extended_map; [|exact Hc].
    intros x y [H1 [H2 H3]].
    destruct (Database.c_id y =? Database.c_id e); repeat split; auto.
  - split; [|auto]. apply extended_more; exact Hc.
Qed.

Lemma grows_insert_agency db0 db now cid cname name url logo desc idx durl
      path :
  grows db0 db ->
  grows db0 (fst (Database.insert_agency db now cid cname name
                                         url logo desc idx durl path)).
Proof.
  intros [Hc [Ha Hs]]. unfold grows, Database.insert_agency.
  destruct (find _ (Database.agencies db)) as [e|]; simpl.
  - split; [exact Hc|]. split; [|exact Hs].
    apply extended_map; [|exact Ha].
    intros x y [H1 [H2 [H3 [H4 H5]]]].
    destruct (Database.a_id y =? Database.a_id e); repeat split; auto.
  - split; [exact Hc|]. split; [|exact Hs]. apply extended_more; exact Ha.
Qed.

Lemma grows_mark_category_scraped db0 db now cid :
  grows db0 db -> grows db0 (Database.mark_category_scraped db now cid).
Proof.
  intros [Hc [Ha Hs]]. unfold grows. simpl. split; [|auto].
  apply extended_map; [|exact Hc].
  intros x y [H1 [H2 H3]].
  destruct (Database.c_id y =? cid); repeat split; auto.
Qed.

Lemma grows_update_agency_detail db0 db now aid d :
  grows db0 db -> grows db0 (Database.update_agency_detail db now aid d).
Proof.
  intros [Hc [Ha Hs]]. unfold grows. simpl.
  split; [exact Hc|]. split; [|exact Hs].
  apply extended_map; [|exact Ha].
  intros x y [H1 [H2 [H3 [H4 H5]]]].
  destruct (Database.a_id y =? aid); repeat split; auto.
Qed.

Lemma grows_update_scraping_status db0 db now sid a :
  grows db0 db -> grows db0 (Database.update_scraping_status db now sid a).
Proof.
  intros [Hc [Ha Hs]]. unfold grows.
  destruct (update_scraping_status_rows db now sid a) as [E1 [E2 E3]].
  rewrite E1, E2, E3. split; [exact Hc|]. split; [exact Ha|].
  apply extended_map; [|exact Hs].
  intros x y [H1 H2].
  destruct (Database.s_id y =? sid); [|split; assumption].
  destruct (updated_columns now a y) as [I1 [I2 _]].
  split; congruence.
Qed.

Lemma grows_same db : grows db db.
Proof.
  repeat split; apply extended_same; intro x; repeat split; auto.
Qed.

(** X6 -- A run loses nothing.  After [scrape_all] every row the store
    held is still there, in place, with its id and its natural key; a
    category marked scraped is still marked, an agency marked detailed
    is still marked, and a session keeps its start; so no count
    decreases. *)
Theorem run_keeps_rows :
  forall W S C s,
    let db' := IBossScraper.db (IBossScraper.scrape_all W S C s) in
    grows (IBossScraper.db s) db'
    /\ Database.count_agencies (IBossScraper.db s)
       <= Database.count_agencies db'
    /\ Database.count_agencies_with_details (IBossScraper.db s)
       <= Database.count_agencies_with_details db'.
Proof.
  intros W S C s db'.
  assert (G : grows (IBossScraper.db s) db').
  { apply (scrape_all_keeps W S C (grows (IBossScraper.db s)));
      auto using grows_insert_category, grows_insert_agency,
        grows_mark_category_scraped, grows_update_scraping_status,
        grows_update_agency_detail, grows_same. }
  split; [exact G|].
  destruct G as [_ [[l1 [l2 [E F]]] _]].
  unfold Database.count_agencies, Database.count_agencies_with_details.
  rewrite E. rewrite filter_app, !length_app.
  rewrite <- (Forall2_length F).
  split; [lia|].
  assert (Hf : (List.length (filter Database.a_detailed_scraped
                               (Database.agencies (IBossScraper.db s)))
                <= List.length (filter Database.a_detailed_scraped l1))%nat).
  { clear E. induction F as [|x y l l' Hxy F IH]; simpl; [lia|].
    destruct Hxy as [_ [_ [_ [_ Hflag]]]].
    destruct (Database.a_detailed_scraped x).
    - rewrite (Hflag eq_refl). simpl. lia.
    - destruct (Database.a_detailed_scraped y); simpl; lia. }
  lia.
Qed.

(** *** The session's row during a run *)







Section Tracked.
Import IBossScraper.
Variables (W : world) (start : option timestamp) (st : option pystr)
          (e : option timestamp).

Lemma tracked_log s ev : tracked s start st e -> tracked (log s ev) start st e.
Proof. intro H; exact H. Qed.













End Tracked.





(** *** Runs without the detail phase *)

Lemma details_untouched_same db : details_untouched db db.
Proof. exists O. simpl. rewrite app_nil_r. reflexivity. Qed.

Lemma details_untouched_agencies db0 db db' :
  Database.agencies db' = Database.agencies db ->
  details_untouched db0 db -> details_untouched db0 db'.
Proof. intros E [n H]. exists n. rewrite E. exact H. Qed.

Lemma details_untouched_insert_category db0 db now name link count :
  details_untouched db0 db ->
  details_untouched db0
    (fst (Database.insert_category db now name link count)).
Proof.
  apply details_untouched_agencies. unfold Database.insert_category.
  destruct (find _ (Database.categories db)); reflexivity.
Qed.

Lemma details_untouched_insert_agency db0 db now cid cname name url logo
      desc idx durl path :
  details_untouched db0 db ->
  details_untouched db0
    (fst (Database.insert_agency db now cid cname name
                                 url logo desc idx durl path)).
Proof.
  intros [n H]. unfold details_untouched, Database.insert_agency.
  destruct (find _ (Database.agencies db)) as [e|]; simpl.
  - exists n. rewrite <- H. rewrite map_map. apply map_ext.
    intro r. destruct (Database.a_id r =? Database.a_id e); reflexivity.
  - exists (Datatypes.S n). rewrite map_app, H, <- app_assoc. simpl.
    rewrite <- repeat_cons. reflexivity.
Qed.

Lemma persist_details W cid cname x s :
  IBossScraper.details_total (fst (IBossScraper.persist W cid cname x s))
  = IBossScraper.details_total s
  /\ IBossScraper.details_scraped (fst (IBossScraper.persist W cid cname x s))
     = IBossScraper.details_scraped s.
Proof.
  unfold IBossScraper.persist.
  destruct (Database.insert_agency _ _ _ _ _ _ _ _ _ _ _); split; reflexivity.
Qed.

(** X9 -- With [skip_details] a run writes no detail.  Every agency
    row the store held keeps its detail description and its detailed
    flag, the rows the run adds have neither, and the two detail
    counters of the scraper stay as they were. *)
Theorem skip_details_writes_no_detail
        (W : world) (S : site) (C : IBossScraper.config)
        (s : IBossScraper.t) :
  IBossScraper.skip_details C = true ->
  let s' := IBossScraper.scrape_all W S C s in
  details_untouched (IBossScraper.db s) (IBossScraper.db s')
  /\ IBossScraper.details_total s' = IBossScraper.details_total s
  /\ IBossScraper.details_scraped s' = IBossScraper.details_scraped s.
Proof.
  intros Hskip s'. split.
  - apply (scrape_all_keeps_skipping W S C
             (details_untouched (IBossScraper.db s)));
      auto using details_untouched_insert_category,
        details_untouched_insert_agency, details_untouched_same.
    intros db now sid a. apply details_untouched_agencies.
    apply (update_scraping_status_rows db now sid a).
  - assert (Hinv : exists s1,
               (IBossScraper.details_total s1 = IBossScraper.details_total s
                /\ IBossScraper.details_scraped s1
                   = IBossScraper.details_scraped s)
               /\ IBossScraper.scrape_all W S C s
                  = IBossScraper.set_status W s1
                      (verdict_status (verdict W S C s))).
    { apply (scrape_all_inv_skipping W S C
               (fun s1 =>
                  IBossScraper.details_total s1
                  = IBossScraper.details_total s
                  /\ IBossScraper.details_scraped s1
                     = IBossScraper.details_scraped s));
        auto.
      intros s0 cid cname x [H1 H2].
      destruct (persist_details W cid cname x s0) as [E1 E2].
      rewrite E1, E2. split; assumption. }
    destruct Hinv as [s1 [[H1 H2] E]]. subst s'. rewrite E.
    split; assumption.
Qed.

Lemma skip_details_writes_no_detail_witness :
  details_untouched
    Sample.db2
    (IBossScraper.db
       (IBossScraper.scrape_all Sample.W Sample.site1 Sample.listing_only
          (IBossScraper.init Sample.W Sample.db2)))
  /\ IBossScraper.details_total
       (IBossScraper.scrape_all Sample.W Sample.site1 Sample.listing_only
          (IBossScraper.init Sample.W Sample.db2)) = 0
  /\ IBossScraper.details_scraped
       (IBossScraper.scrape_all Sample.W Sample.site1 Sample.listing_only
          (IBossScraper.init Sample.W Sample.db2)) = 0.
Proof.
  refine ((fun H => conj _ (proj2 H))
            (skip_details_writes_no_detail
               Sample.W Sample.site1 Sample.listing_only
               (IBossScraper.init Sample.W Sample.db2) eq_refl)).
  exact (proj1 H).
Defined.

(** *** Where a run saves *)

Lemma upto_In evs : forall n e, In e (upto evs n) -> In e evs.
Proof.
  induction evs as [|a evs IH]; intros [|n] e; simpl; try tauto.
  intros [->|H]; [left; reflexivity|right].
  destruct (is_upsert a); eapply IH; exact H.
Qed.

Lemma cut_In evs b e : In e (cut evs b) -> In e evs.
Proof. destruct b; simpl; [apply upto_In|auto]. Qed.

Lemma script_category W cid cname l :
  forall c n, In (Upsert c n) (script W cid cname l) -> c = cid.
Proof.
  induction l as [p a|p a|p a l IH] using listing_induction;
    intros c n; simpl;
    (destruct (IBossScraper.elements_of p a) as [els|]; [|contradiction]);
    intro H; apply in_app_or in H; destruct H as [H|H];
    try (apply in_map_iff in H; destruct H as [x [E _]]; congruence);
    try contradiction.
  destruct H as [H|H]; [discriminate|]. eapply IH; exact H.
Qed.

Lemma saved_In s c n :
  In (Upsert c n) (IBossScraper.trace s) <-> In (Upsert c n) (saved s).
Proof.
  unfold saved. rewrite filter_In. simpl. tauto.
Qed.

Lemma for_listings_saves W S C categories :
  forall s c n,
    In (Upsert c n)
       (IBossScraper.trace (IBossScraper.for_listings W S C categories s)) ->
    In (Upsert c n) (IBossScraper.trace s)
    \/ exists cat, In cat categories /\ IBossScraper.cd_id cat = c.
Proof.
  induction categories as [|cat rest IH]; intros s c n; simpl; [auto|].
  intro H. apply IH in H. destruct H as [H|[cat' [Hin E]]].
  - destruct (get_agencies_in_category_script W S C s
                (IBossScraper.cd_id cat) (IBossScraper.cd_category_name cat)
                (IBossScraper.cd_category_link cat)) as [E _].
    rewrite E in H. apply in_app_or in H. destruct H as [H|H]; [auto|].
    destruct H as [H|H]; [discriminate|].
    apply cut_In, script_category in H.
    right. exists cat. auto.
  - right. exists cat'. auto.
Qed.

Section Saved.
Import IBossScraper.
Variables (W : world) (S : site).

Lemma saved_log s ev : is_upsert ev = false -> saved (log s ev) = saved s.
Proof.
  intro H. unfold saved. simpl. rewrite filter_app. simpl. rewrite H.
  apply app_nil_r.
Qed.

Lemma get_categories_saved s : saved (fst (get_categories W S s)) = saved s.
Proof.
  apply (get_categories_inv W S (fun s1 => saved s1 = saved s)); auto.
  intros s0 u H. rewrite saved_log; [exact H|reflexivity].
Qed.

Lemma scrape_all_agency_details_saved s :
  saved (scrape_all_agency_details W S s) = saved s.
Proof.
  apply (scrape_all_agency_details_inv W S (fun s1 => saved s1 = saved s));
    auto.
  intros s0 u H. rewrite saved_log; [exact H|reflexivity].
Qed.

End Saved.

(** X10 -- A run saves only under the categories it selected.  Every
    upsert in the trace of [scrape_all] was either there before the
    run, or carries the id of a category that [get_categories]
    returned and that the target filter let through: when targets are
    given, the name of that category is one of them. *)
Theorem saves_only_under_selected :
  forall W S C s c n,
    In (Upsert c n) (IBossScraper.trace (IBossScraper.scrape_all W S C s)) ->
    In (Upsert c n) (IBossScraper.trace s)
    \/ exists cat,
        In cat (snd (IBossScraper.get_categories W S s))
        /\ IBossScraper.cd_id cat = c
        /\ forall t ts,
            IBossScraper.target_categories C = Some (t :: ts) ->
            In (IBossScraper.cd_category_name cat) (t :: ts).
Proof.
  intros W S C s c n.
  assert (Hsel : forall cat,
             In cat (IBossScraper.select
                       C (snd (IBossScraper.get_categories W S s))) ->
             In cat (snd (IBossScraper.get_categories W S s))
             /\ forall t ts,
                 IBossScraper.target_categories C = Some (t :: ts) ->
                 In (IBossScraper.cd_category_name cat) (t :: ts)).
  { intro cat. unfold IBossScraper.select.
    destruct (IBossScraper.target_categories C) as [[|t ts]|].
    - intro H. split; [exact H|]. intros; discriminate.
    - intro H. apply filter_In in H. destruct H as [H1 H2].
      split; [exact H1|]. intros t' ts' E. inversion E; subst.
      apply existsb_exists in H2. destruct H2 as [x [Hx Heq]].
      apply pystr_eqb_eq in Heq. rewrite Heq. exact Hx.
    - intro H. split; [exact H|]. intros; discriminate. }
  pose proof (get_categories_saved W S s) as Hg.
  unfold IBossScraper.scrape_all.
  destruct (IBossScraper.get_categories W S s) as [s1 cats] eqn:Eg.
  cbn [fst snd] in *.
  assert (Hold : In (Upsert c n) (IBossScraper.trace s1) ->
                 In (Upsert c n) (IBossScraper.trace s)).
  { intro H. apply saved_In. rewrite <- Hg. apply saved_In. exact H. }
  destruct cats as [|cat0 cats0]; [intro H; left; exact (Hold H)|].
  set (cats := cat0 :: cats0) in *.
  destruct (IBossScraper.sum_counts W (IBossScraper.select C cats))
    as [total|]; [|intro H; left; exact (Hold H)].
  assert (Hrun : forall s2,
             IBossScraper.trace s2
             = IBossScraper.trace
                 (if IBossScraper.skip_details C
                  then IBossScraper.for_listings W S C
                         (IBossScraper.select C cats)
                         (IBossScraper.update_status W
                            (IBossScraper.set_agencies_total s1 total)
                            (Database.mk_args None None (Some total)
                                              None None None None))
                  else IBossScraper.scrape_all_agency_details W S
                         (IBossScraper.for_listings W S C
                            (IBossScraper.select C cats)
                            (IBossScraper.update_status W
                               (IBossScraper.set_agencies_total s1 total)
                               (Database.mk_args None None (Some total)
                                                 None None None None)))) ->
             In (Upsert c n) (IBossScraper.trace s2) ->
             In (Upsert c n) (IBossScraper.trace s)
             \/ exists cat,
                 In cat cats /\ IBossScraper.cd_id cat = c
                 /\ forall t ts,
                     IBossScraper.target_categories C = Some (t :: ts) ->
                     In (IBossScraper.cd_category_name cat) (t :: ts)).
  { intros s2 E H. rewrite E in H.
    assert (H' : In (Upsert c n)
                    (IBossScraper.trace
                       (IBossScraper.for_listings W S C
                          (IBossScraper.select C cats)
                          (IBossScraper.update_status W
                             (IBossScraper.set_agencies_total s1 total)
                             (Database.mk_args None None (Some total)
                                               None None None None))))).
    { destruct (IBossScraper.skip_details C); [exact H|].
      apply saved_In.
      rewrite <- (scrape_all_agency_details_saved W S).
      apply saved_In. exact H. }
    apply for_listings_saves in H'. destruct H' as [H'|[cat [Hin Hid]]].
    - left. apply Hold. exact H'.
    - right. exists cat. destruct (Hsel cat Hin) as [H1 H2]. auto. }
  destruct (export_to_csv W); intro H; eapply Hrun; try exact H; reflexivity.
Qed.

Lemma saves_only_under_selected_witness :
  In (Upsert 1 (lit "acme"))
     (IBossScraper.trace (IBossScraper.init Sample.W Sample.db2))
  \/ exists cat,
      In cat (snd (IBossScraper.get_categories
                     Sample.W Sample.site1
                     (IBossScraper.init Sample.W Sample.db2)))
      /\ IBossScraper.cd_id cat = 1
      /\ forall t ts,
          IBossScraper.target_categories Sample.only_A = Some (t :: ts) ->
          In (IBossScraper.cd_category_name cat) (t :: ts).
Proof.
  apply (saves_only_under_selected Sample.W Sample.site1 Sample.only_A
           (IBossScraper.init Sample.W Sample.db2) 1 (lit "acme")).
  vm_compute. repeat (try (left; reflexivity); right).
Defined.

(** *** One bad element *)




(** *** What [get_categories] returns *)

Lemma absolute_is_absolute u : is_absolute (IBossScraper.absolute u) = true.
Proof.
  unfold IBossScraper.absolute.
  destruct (startswith (lit "http://") u || startswith (lit "https://") u)
           eqn:E; [exact E|].
  unfold is_absolute. apply orb_true_iff. right. reflexivity.
Qed.

Lemma on_file_insert_category db now name link count cat :
  on_file db cat ->
  on_file (fst (Database.insert_category db now name link count)) cat.
Proof.
  intros [r [Hin [Hid Hname]]]. unfold on_file, Database.insert_category.
  destruct (find _ (Database.categories db)) as [e|]; simpl.
  - exists (if Database.c_id r =? Database.c_id e
            then Database.relink now link count r else r).
    split.
    + apply (in_map (fun r => if Database.c_id r =? Database.c_id e
                              then Database.relink now link count r else r)).
      exact Hin.
    + destruct (Database.c_id r =? Database.c_id e); split; assumption.
  - exists r. split; [apply in_or_app; left; exact Hin|split; assumption].
Qed.

Lemma on_file_inserted db now name link count :
  on_file (fst (Database.insert_category db now name link count))
          (IBossScraper.mk_category_data
             (snd (Database.insert_category db now name link count))
             name link count).
Proof.
  unfold on_file, Database.insert_category.
  destruct (find _ (Database.categories db)) as [e|] eqn:F; simpl.
  - apply find_some in F. destruct F as [Hin Hname].
    apply pystr_eqb_eq in Hname.
    exists (Database.relink now link count e). split.
    + apply in_map_iff. exists e. rewrite Z.eqb_refl. auto.
    + split; [reflexivity|exact Hname].
  - eexists. split; [apply in_or_app; right; left; reflexivity|].
    split; reflexivity.
Qed.

Lemma category_of_link e name link count :
  IBossScraper.category_of e = Ok (name, link, count) ->
  is_absolute link = true.
Proof.
  unfold IBossScraper.category_of.
  destruct (inner_text e) as [text|]; simpl; [|discriminate].
  destruct (get_attribute e (lit "href")) as [[href|]|]; simpl;
    try discriminate.
  intro H. inversion H; subst. apply absolute_is_absolute.
Qed.

Lemma for_categories_returns W anchors elements :
  forall s data,
    (forall e, In e elements -> In e anchors) ->
    Forall (fun cat =>
              is_absolute (IBossScraper.cd_category_link cat) = true
              /\ on_file (IBossScraper.db s) cat
              /\ exists e,
                  In e anchors
                  /\ IBossScraper.category_of e
                     = Ok (IBossScraper.cd_category_name cat,
                           IBossScraper.cd_category_link cat,
                           IBossScraper.cd_agency_count cat)) data ->
    let r := IBossScraper.for_categories W elements s data in
    Forall (fun cat =>
              is_absolute (IBossScraper.cd_category_link cat) = true
              /\ on_file (IBossScraper.db (fst r)) cat
              /\ exists e,
                  In e anchors
                  /\ IBossScraper.category_of e
                     = Ok (IBossScraper.cd_category_name cat,
                           IBossScraper.cd_category_link cat,
                           IBossScraper.cd_agency_count cat)) (snd r)
    /\ (List.length (snd r)
        <= List.length data + List.length elements)%nat.
Proof.
  induction elements as [|e rest IH]; intros s data Hsub Hdata; simpl.
  - split; [exact Hdata|lia].
  - destruct (IBossScraper.category_of e) as [[[name link] count]|] eqn:E.
    + pose proof (on_file_inserted (IBossScraper.db s)
                    (IBossScraper.now W s) name link count) as Hnew.
      assert (Hold : forall cat,
                 on_file (IBossScraper.db s) cat ->
                 on_file (fst (Database.insert_category
                                 (IBossScraper.db s) (IBossScraper.now W s)
                                 name link count)) cat)
        by (intro cat; apply on_file_insert_category).
      destruct (Database.insert_category _ _ _ _ _) as [d cid].
      cbn [fst snd] in Hnew, Hold.
      destruct (IH (IBossScraper.put_db s d)
                   (data ++ [IBossScraper.mk_category_data cid name link
                                                           count]))
        as [H1 H2].
      * intros x Hx. apply Hsub. right. exact Hx.
      * apply Forall_app. split.
        -- eapply Forall_impl; [|exact Hdata].
           intros cat [A [B D]]. split; [exact A|]. split; [|exact D].
           apply Hold. exact B.
        -- constructor; [|constructor]. simpl.
           split; [eapply category_of_link; exact E|].
           split; [exact Hnew|].
           exists e. split; [apply Hsub; left; reflexivity|exact E].
      * split; [exact H1|]. rewrite length_app in H2. simpl in H2. lia.
    + destruct (IH s data) as [H1 H2].
      * intros x Hx. apply Hsub. right. exact Hx.
      * exact Hdata.
      * split; [exact H1|]. lia.
Qed.

(** X12 -- What [get_categories] returns.  Every dict of the list has
    an absolute link, was read off one of the anchors of the directory
    page, and is on file: the store the method leaves holds a category
    row with the dict's id and name.  There is at most one dict per
    anchor, and none when the page could not be read. *)
Theorem get_categories_returns :
  forall W S s,
    let r := IBossScraper.get_categories W S s in
    Forall (fun cat =>
              is_absolute (IBossScraper.cd_category_link cat) = true
              /\ on_file (IBossScraper.db (fst r)) cat
              /\ exists anchors e,
                  main_page S = Ok anchors
                  /\ In e anchors
                  /\ IBossScraper.category_of e
                     = Ok (IBossScraper.cd_category_name cat,
                           IBossScraper.cd_category_link cat,
                           IBossScraper.cd_agency_count cat)) (snd r)
    /\ match main_page S with
       | Ok anchors => (List.length (snd r) <= List.length anchors)%nat
       | Raise => snd r = []
       end.
Proof.
  intros W S s. unfold IBossScraper.get_categories.
  destruct (main_page S) as [anchors|]; simpl; [|split; constructor].
  match goal with
  | |- context [IBossScraper.for_categories W anchors ?s1 []] =>
      destruct (for_categories_returns W anchors anchors s1 [])
        as [H1 H2]; [auto|constructor|]
  end.
  split; [|exact H2].
  eapply Forall_impl; [|exact H1].
  intros cat [A [B [e [He1 He2]]]]. split; [exact A|]. split; [exact B|].
  exists anchors, e. auto.
Qed.

(** *** What [extract_agency_idx] returns *)

Lemma startswith_split p : forall s,
  startswith p s = true -> s = p ++ skipn (List.length p) s.
Proof.
  induction p as [|x p IH]; intros [|y s]; simpl; try discriminate;
    try reflexivity.
  intro H. apply andb_true_iff in H. destruct H as [H1 H2].
  apply N.eqb_eq in H1. subst. f_equal. apply IH. exact H2.
Qed.

Lemma digits_split W s :
  exists rest,
    s = IBossScraper.digits W s ++ rest
    /\ forallb (is_digit W) (IBossScraper.digits W s) = true
    /\ match rest with c :: _ => is_digit W c = false | [] => True end.
Proof.
  induction s as [|c s [rest [H1 [H2 H3]]]]; simpl.
  - exists []. auto.
  - destruct (is_digit W c) eqn:E.
    + exists rest. simpl. rewrite E, H2. split; [f_equal; exact H1|auto].
    + exists (c :: s). auto.
Qed.

Lemma search_idx_sound W h : forall ds,
  IBossScraper.search_idx W h = Some ds ->
  exists pre rest,
    h = pre ++ lit "idx=" ++ ds ++ rest
    /\ ds <> []
    /\ forallb (is_digit W) ds = true
    /\ match rest with c :: _ => is_digit W c = false | [] => True end.
Proof.
  induction h as [|c h IH]; intro ds; [discriminate|].
  assert (Hrec : IBossScraper.search_idx W h = Some ds ->
                 exists pre rest,
                   c :: h = pre ++ lit "idx=" ++ ds ++ rest
                   /\ ds <> []
                   /\ forallb (is_digit W) ds = true
                   /\ match rest with
                      | c :: _ => is_digit W c = false
                      | [] => True
                      end).
  { intro H. destruct (IH ds H) as [pre [rest [E R]]].
    exists (c :: pre), rest. split; [simpl; f_equal; exact E|exact R]. }
  rewrite search_idx_step. unfold idx_at.
  destruct (startswith (lit "idx=") (c :: h)) eqn:Hs; [|exact Hrec].
  cbn [andb].
  destruct (digits_split W (skipn 4 (c :: h))) as [rest [H1 [H2 H3]]].
  destruct (IBossScraper.digits W (skipn 4 (c :: h))) as [|d ds'] eqn:Ed;
    [exact Hrec|].
  intro H. inversion H; subst ds.
  exists [], rest. split.
  - rewrite (startswith_split _ _ Hs) at 1. change (List.length (lit "idx="))
      with 4%nat. rewrite H1 at 1. reflexivity.
  - split; [discriminate|]. split; assumption.
Qed.

(** X13 -- What comes out of [extract_agency_idx].  Either there is no
    idx and no detail URL, or the idx is a non-empty run of digits that
    stands in the href right after the text idx= and is not followed by
    a digit, and the detail URL is the base URL, the path /ab-7554- and
    that idx.  An idx never comes without its detail URL. *)
Theorem idx_comes_from_the_href :
  forall W href,
    (IBossScraper.extract_agency_idx W href = None
     /\ IBossScraper.derive W href = (None, None))
    \/ exists h pre ds rest,
        href = Some h
        /\ h = pre ++ lit "idx=" ++ ds ++ rest
        /\ ds <> []
        /\ forallb (is_digit W) ds = true
        /\ match rest with c :: _ => is_digit W c = false | [] => True end
        /\ IBossScraper.extract_agency_idx W href = Some ds
        /\ IBossScraper.derive W href
           = (Some ds,
              Some (IBossScraper.base_url ++ lit "/ab-7554-" ++ ds)).
Proof.
  intros W href.
  assert (Hd : IBossScraper.derive W href
               = (IBossScraper.extract_agency_idx W href,
                  if truthy (IBossScraper.extract_agency_idx W href)
                  then option_map
                         (fun i => IBossScraper.base_url
                                     ++ lit "/ab-7554-" ++ i)
                         (IBossScraper.extract_agency_idx W href)
                  else None))
    by (destruct href as [[|c h]|]; reflexivity).
  rewrite Hd. clear Hd.
  destruct (IBossScraper.extract_agency_idx W href) as [ds|] eqn:E.
  - right. destruct href as [[|c h]|]; try discriminate E.
    change (IBossScraper.search_idx W (c :: h) = Some ds) in E.
    destruct (search_idx_sound W _ _ E) as [pre [rest [H1 [H2 [H3 H4]]]]].
    exists (c :: h), pre, ds, rest.
    repeat (split; [assumption || reflexivity|]).
    destruct ds as [|d ds]; [contradiction H2; reflexivity|reflexivity].
  - left. split; reflexivity.
Qed.

(** *** The scope of the detail phase *)

Section Detail_scope.
Import IBossScraper.
Variables (W : world) (S : site) (r : Database.agency_row).

Lemma update_agency_detail_keeps db now aid d :
  aid <> Database.a_id r ->
  In r (Database.agencies db) ->
  In r (Database.agencies (Database.update_agency_detail db now aid d)).
Proof.
  intros Hne Hin. simpl.
  apply in_map_iff. exists r. split; [|exact Hin].
  destruct (Z.eqb_spec (Database.a_id r) aid); [congruence|reflexivity].
Qed.

Lemma update_status_agencies s a :
  Database.agencies (db (update_status W s a)) = Database.agencies (db s).
Proof.
  unfold update_status. cbn [db put_db].
  apply (update_scraping_status_rows (db s) (now W s) (session_id s) a).
Qed.

Lemma get_agency_detail_keeps s aid name idx url :
  (truthy url = true -> aid <> Database.a_id r) ->
  In r (Database.agencies (db s)) ->
  In r (Database.agencies
          (db (fst (get_agency_detail W S s aid name idx url)))).
Proof.
  intros Hne Hin. unfold get_agency_detail.
  destruct url as [[|c u]|]; try exact Hin.
  destruct (navigated _); [|exact Hin].
  destruct (detail_desc_of _) as [[d|]|]; try exact Hin.
  cbv zeta. cbn [fst]. rewrite update_status_agencies.
  cbn [db set_details_scraped put_db].
  apply update_agency_detail_keeps; [|exact Hin].
  apply Hne. reflexivity.
Qed.

Lemma for_details_keeps agencies :
  forall s,
    (forall c, In c agencies -> truthy (snd c) = true ->
               pending_id c <> Database.a_id r) ->
    In r (Database.agencies (db s)) ->
    In r (Database.agencies (db (for_details W S agencies s))).
Proof.
  induction agencies as [|[[[aid name] idx] url] rest IH]; intros s Hne Hin;
    simpl; [exact Hin|].
  apply IH.
  - intros c Hc. apply Hne. right. exact Hc.
  - apply get_agency_detail_keeps; [|exact Hin].
    intro Ht. apply (Hne (aid, name, idx, url)); [left; reflexivity|exact Ht].
Qed.

End Detail_scope.

(** X14 -- The detail phase touches only what was pending and has a
    detail URL.  In a store whose agency ids are distinct, a row that
    is already marked detailed, or whose detail URL is missing or
    empty, is the same row after [scrape_all_agency_details]; so an
    agency without a detail URL is never marked, and is pending again
    on the next run. *)
Theorem detail_phase_leaves_the_rest
        (W : world) (S : site) (s : IBossScraper.t)
        (r : Database.agency_row) :
  NoDup (map Database.a_id (Database.agencies (IBossScraper.db s))) ->
  In r (Database.agencies (IBossScraper.db s)) ->
  Database.a_detailed_scraped r = true
  \/ truthy (Database.a_agency_detail_url r) = false ->
  In r (Database.agencies
          (IBossScraper.db (IBossScraper.scrape_all_agency_details W S s))).
Proof.
  intros Hn Hin Hr. unfold IBossScraper.scrape_all_agency_details.
  destruct (Database.get_agencies_without_details (IBossScraper.db s))
    as [|a rest] eqn:E; [exact Hin|].
  apply for_details_keeps.
  - rewrite <- E. intros c Hc Ht Hid.
    unfold Database.get_agencies_without_details in Hc.
    apply in_map_iff in Hc. destruct Hc as [r0 [Hc Hr0]].
    apply filter_In in Hr0. destruct Hr0 as [Hr0 Hflag].
    subst c. unfold pending_id in Hid. simpl in Hid, Ht.
    rewrite (same_id_same_row Database.a_id _ r0 r Hn Hr0 Hin Hid)
      in Hflag, Ht.
    destruct Hr as [Hr|Hr]; [rewrite Hr in Hflag; discriminate|congruence].
  - rewrite update_status_agencies. exact Hin.
Qed.

Lemma detail_phase_leaves_the_rest_witness :
  In Sample.acme_row
     (Database.agencies
        (IBossScraper.db
           (IBossScraper.scrape_all_agency_details Sample.W Sample.site1
              (IBossScraper.init Sample.W Sample.db2)))).
Proof.
  apply detail_phase_leaves_the_rest.
  - simpl. repeat constructor. intros [].
  - left. reflexivity.
  - right. reflexivity.
Defined.

(** *** The retries of [navigate_to_url] *)

Lemma absolute_idempotent u :
  IBossScraper.absolute (IBossScraper.absolute u) = IBossScraper.absolute u.
Proof.
  pose proof (absolute_is_absolute u) as H. unfold is_absolute in H.
  unfold IBossScraper.absolute at 1. rewrite H. reflexivity.
Qed.

Lemma attempts_run loads retries :
  forall remaining attempt url,
    Z.of_nat (attempt + remaining) = retries ->
    (0 < remaining)%nat ->
    exists n,
      (1 <= n <= remaining)%nat
      /\ IBossScraper.attempts loads retries url attempt remaining
         = (Some (loads (attempt + n - 1)%nat),
            repeat (IBossScraper.absolute url) n)
      /\ (forall k, (k < n - 1)%nat -> loads (attempt + k)%nat = false)
      /\ (loads (attempt + n - 1)%nat = false -> n = remaining).
Proof.
  induction remaining as [|m IH]; intros attempt url Heq Hpos; [lia|].
  simpl. destruct (loads attempt) eqn:L.
  - exists 1%nat. replace (attempt + 1 - 1)%nat with attempt by lia.
    rewrite L. repeat split; try lia; try discriminate.
  - destruct (Z.eqb_spec (Z.of_nat attempt) (retries - 1)) as [Hlast|Hmore].
    + exists 1%nat. replace (attempt + 1 - 1)%nat with attempt by lia.
      rewrite L. repeat split; try lia; try reflexivity.
    + destruct (IH (Datatypes.S attempt) (IBossScraper.absolute url))
        as [n [Hn [Hrun [Hfail Hend]]]]; [lia|lia|].
      rewrite Hrun, absolute_idempotent.
      exists (Datatypes.S n).
      replace (attempt + Datatypes.S n - 1)%nat
        with (Datatypes.S attempt + n - 1)%nat by lia.
      split; [lia|]. split; [reflexivity|]. split.
      * intros [|k] Hk.
        -- rewrite Nat.add_0_r. exact L.
        -- replace (attempt + Datatypes.S k)%nat
             with (Datatypes.S attempt + k)%nat by lia.
           apply Hfail. lia.
      * intro H. rewrite (Hend H). reflexivity.
Qed.

(** X15 -- The retries of [navigate_to_url].  With no attempt allowed
    the method requests nothing and returns None.  Otherwise it makes
    between one and [retries] requests, all for the absolute form of
    the URL, stops at the first that loads, and returns whether the
    last request loaded; it gives up only after [retries] requests. *)
Theorem navigate_to_url_attempts :
  forall loads url retries,
    if retries <=? 0
    then IBossScraper.navigate_to_url_retrying loads url retries = (None, [])
    else exists n,
        (1 <= n)%nat /\ Z.of_nat n <= retries
        /\ IBossScraper.navigate_to_url_retrying loads url retries
           = (Some (loads (n - 1)%nat),
              repeat (IBossScraper.absolute url) n)
        /\ (forall k, (k < n - 1)%nat -> loads k = false)
        /\ (loads (n - 1)%nat = false -> Z.of_nat n = retries).
Proof.
  intros loads url retries. unfold IBossScraper.navigate_to_url_retrying.
  destruct (Z.leb_spec retries 0) as [Hle|Hlt].
  - replace (Z.to_nat retries) with O by lia. reflexivity.
  - destruct (attempts_run loads retries (Z.to_nat retries) O url)
      as [n [Hn [Hrun [Hfail Hend]]]]; [lia|lia|].
    exists n. simpl in Hrun, Hfail, Hend.
    split; [lia|]. split; [lia|]. split; [exact Hrun|].
    split; [exact Hfail|]. intro H. rewrite (Hend H). lia.
Qed.

(** *** Logos *)

Lemma sanitize_safe name :
  forallb (fun c => negb (IBossScraper.unsafe c)) (IBossScraper.sanitize name) = true.
Proof.
  induction name as [|c name IH]; simpl; [reflexivity|].
  rewrite IH, andb_true_r.
  destruct (IBossScraper.unsafe c) eqn:E; [reflexivity|]. rewrite E. reflexivity.
Qed.

Lemma sanitize_app a b :
  IBossScraper.sanitize (a ++ b)
  = IBossScraper.sanitize a ++ IBossScraper.sanitize b.
Proof. apply map_app. Qed.

Lemma sanitize_idempotent name :
  IBossScraper.sanitize (IBossScraper.sanitize name)
  = IBossScraper.sanitize name.
Proof.
  unfold IBossScraper.sanitize. rewrite map_map. apply map_ext.
  intro c. destruct (IBossScraper.unsafe c) eqn:E; [reflexivity|]. rewrite E. reflexivity.
Qed.

Lemma path_join_name d name :
  startswith [47%N] name = false ->
  IBossScraper.path_join d name = dir_prefix d ++ name.
Proof.
  intro H. unfold IBossScraper.path_join, dir_prefix. rewrite H.
  destruct d as [|c d]; [reflexivity|].
  destruct (N.eqb (last (c :: d) 0%N) 47); [reflexivity|].
  rewrite <- app_assoc. reflexivity.
Qed.

(** X16 -- Where a logo goes.  The file name is made of the two
    sanitized names, an underscore between them and the suffix .png; it
    holds no slash, backslash or other character of the class, so the
    path is that name directly under the logos directory.  Names that
    differ only in characters of the class, or in where the underscore
    falls, give the same path. *)
Theorem logo_path_shape :
  forall d c a,
    (exists name,
        IBossScraper.logo_path d c a = dir_prefix d ++ name
        /\ name = IBossScraper.sanitize c ++ lit "_"
                  ++ IBossScraper.sanitize a ++ lit ".png"
        /\ forallb (fun ch => negb (IBossScraper.unsafe ch)) name = true)
    /\ IBossScraper.logo_path d (IBossScraper.sanitize c)
                              (IBossScraper.sanitize a)
       = IBossScraper.logo_path d c a
    /\ forall x y z,
        IBossScraper.logo_path d (x ++ lit "_" ++ y) z
        = IBossScraper.logo_path d x (y ++ lit "_" ++ z).
Proof.
  intros d c a. split; [|split].
  - eexists. split; [|split; [reflexivity|]].
    + unfold IBossScraper.logo_path. apply path_join_name.
      destruct (IBossScraper.sanitize c) as [|ch rest] eqn:E;
        [reflexivity|].
      pose proof (sanitize_safe c) as Hs. rewrite E in Hs. simpl in Hs.
      apply andb_true_iff in Hs. destruct Hs as [Hs _].
      cbn [app startswith].
      destruct (N.eqb_spec 47 ch) as [Heq|Hne]; [|reflexivity].
      subst ch. vm_compute in Hs. discriminate Hs.
    + rewrite !forallb_app, !sanitize_safe. reflexivity.
  - unfold IBossScraper.logo_path. rewrite !sanitize_idempotent. reflexivity.
  - intros x y z. unfold IBossScraper.logo_path.
    rewrite !sanitize_app, <- !app_assoc. reflexivity.
Qed.

Lemma path_exists_In files path :
  path_exists files path = true <-> In path files.
Proof.
  unfold path_exists. rewrite existsb_exists. split.
  - intros [x [Hx E]]. apply pystr_eqb_eq in E. subst. exact Hx.
  - intro H. exists path. split; [exact H|apply pystr_eqb_refl].
Qed.

Lemma download_logo_on_existing files get d url c a :
  usable url = true ->
  path_exists files (IBossScraper.logo_path d c a) = true ->
  IBossScraper.download_logo_on files get d (Some url) c a
  = (files, Some (IBossScraper.logo_path d c a), false).
Proof.
  unfold usable, path_exists, IBossScraper.download_logo_on.
  intros Hu He. destruct url as [|ch url]; [discriminate|].
  cbn [truthy andb] in Hu.
  destruct (pystr_eqb (ch :: url) NA); [discriminate Hu|].
  rewrite He. reflexivity.
Qed.

Lemma download_logo_on_cases files get d url c a :
  let path := IBossScraper.logo_path d c a in
  let r := IBossScraper.download_logo_on files get d url c a in
  (r = (files, None, false) /\ forall u, url = Some u -> usable u = false)
  \/ (r = (files, Some path, false) /\ path_exists files path = true)
  \/ (exists u,
         url = Some u /\ usable u = true
         /\ path_exists files path = false
         /\ (r = (files, None, true)
             \/ r = (path :: files, Some path, true)
             \/ r = (path :: files, None, true))).
Proof.
  intros path r. subst r. unfold IBossScraper.download_logo_on. fold path.
  destruct url as [[|ch u]|].
  - left. split; [reflexivity|]. intros u E. inversion E. reflexivity.
  - destruct (pystr_eqb (ch :: u) NA) eqn:Hna.
    + left. split; [reflexivity|]. intros u0 E. inversion E.
      unfold usable. rewrite Hna. reflexivity.
    + destruct (existsb (pystr_eqb path) files) eqn:He.
      * right. left. split; [reflexivity|exact He].
      * right. right. exists (ch :: u).
        split; [reflexivity|]. split; [unfold usable; rewrite Hna; reflexivity|].
        split; [exact He|].
        destruct (get (ch :: u)) as [|code [| |]]; auto;
          destruct (code =? 200); auto.
  - left. split; [reflexivity|]. intros u E. discriminate E.
Qed.

(** X17 -- What [download_logo] does to the files.  It removes no file
    and adds at most the logo's path; a path it returns is that path
    and exists afterwards; it sends a request only for a URL that is
    neither missing, empty nor the sentinel, and only when no file is
    at the path; and when a file is there it returns the path and
    sends nothing. *)
Theorem download_logo_files :
  forall files get d url c a,
    let path := IBossScraper.logo_path d c a in
    let r := IBossScraper.download_logo_on files get d url c a in
    let files' := fst (fst r) in
    (forall p, In p files -> In p files')
    /\ (forall p, In p files' -> In p files \/ p = path)
    /\ (forall p, snd (fst r) = Some p ->
                  p = path /\ path_exists files' p = true)
    /\ (snd r = true ->
        exists u, url = Some u /\ usable u = true
                  /\ path_exists files path = false)
    /\ (forall u, url = Some u -> usable u = true ->
                  path_exists files path = true ->
                  r = (files, Some path, false)).
Proof.
  intros files get d url c a path r files'.
  assert (Hself : path_exists (path :: files) path = true)
    by (apply path_exists_In; left; reflexivity).
  assert (Hlast : forall u, url = Some u -> usable u = true ->
                            path_exists files path = true ->
                            r = (files, Some path, false)).
  { intros u -> Hu He. apply download_logo_on_existing; assumption. }
  pose proof (download_logo_on_cases files get d url c a) as Hc.
  cbv zeta in Hc. fold path in Hc. fold r in Hc.
  subst files'. clearbody r. clearbody path.
  split; [intros p H|split; [intros p H|split; [intros p H|split;
    [intros H|intros u0 E0 Hu0 He0; eapply Hlast; eassumption]]]];
    destruct Hc as [[E _]|[[E He]|[u [Eu [Hu [He [E|[E|E]]]]]]]];
    subst r; cbn [fst snd] in *;
    try discriminate H;
    try (left; exact H);
    try (right; exact H);
    try exact H;
    try (destruct H as [H|H]; [right; symmetry; exact H|left; exact H]);
    try (inversion H; subst p; split; [reflexivity|assumption]);
    try (exists u; auto).
Qed.

(** X18 -- A write that broke off leaves a logo.  When the answer is
    200 and writing the file raises after it was opened, the call
    returns None; the next call for an agency with the same path, with
    any usable URL and whatever the server would answer, sends no
    request and returns the path of the file left behind. *)
Theorem broken_write_is_kept
        (files : list pystr) (get get' : pystr -> IBossScraper.response)
        (d url url' c a c' a' : pystr) :
  usable url = true ->
  usable url' = true ->
  path_exists files (IBossScraper.logo_path d c a) = false ->
  get url = IBossScraper.Status_code 200 IBossScraper.Write_raises ->
  IBossScraper.logo_path d c' a' = IBossScraper.logo_path d c a ->
  let r := IBossScraper.download_logo_on files get d (Some url) c a in
  snd (fst r) = None
  /\ IBossScraper.download_logo_on (fst (fst r)) get' d (Some url') c' a'
     = (fst (fst r), Some (IBossScraper.logo_path d c a), false).
Proof.
  intros Hu Hu' Hno Hget Hsame r.
  assert (Hr : r = (IBossScraper.logo_path d c a :: files, None, true)).
  { subst r. unfold IBossScraper.download_logo_on.
    unfold usable in Hu. destruct url as [|ch u]; [discriminate|].
    cbn [truthy andb] in Hu.
    destruct (pystr_eqb (ch :: u) NA); [discriminate Hu|].
    unfold path_exists in Hno. rewrite Hno, Hget. reflexivity. }
  rewrite Hr. cbn [fst snd]. split; [reflexivity|].
  rewrite <- Hsame. apply download_logo_on_existing; [exact Hu'|].
  rewrite Hsame. apply path_exists_In. left. reflexivity.
Qed.

Lemma broken_write_is_kept_witness :
  snd (fst (IBossScraper.download_logo_on
              [] Sample.breaking (lit "data/logos") (Some Sample.logo_url)
              (lit "A_B") (lit "acme"))) = None
  /\ IBossScraper.download_logo_on
       (fst (fst (IBossScraper.download_logo_on
                    [] Sample.breaking (lit "data/logos")
                    (Some Sample.logo_url) (lit "A_B") (lit "acme"))))
       (fun _ => IBossScraper.Get_raises) (lit "data/logos") (Some Sample.logo_url)
       (lit "A") (lit "B_acme")
     = (fst (fst (IBossScraper.download_logo_on
                    [] Sample.breaking (lit "data/logos")
                    (Some Sample.logo_url) (lit "A_B") (lit "acme"))),
        Some (IBossScraper.logo_path (lit "data/logos") (lit "A_B")
                                     (lit "acme")),
        false).
Proof.
  apply (broken_write_is_kept [] Sample.breaking (fun _ => IBossScraper.Get_raises)
           (lit "data/logos") Sample.logo_url Sample.logo_url
           (lit "A_B") (lit "acme") (lit "A") (lit "B_acme"));
    reflexivity.
Defined.

(** *** One detail page *)

(** X19 -- A detail is stored whole or not at all.  When
    [get_agency_detail] returns None the store and the counter of
    details are as before; when it returns a description, the detail
    URL was not empty, the counter is one more, every row with the
    agency's id carries that description and the detailed flag, and
    every other row is as before. *)
Theorem detail_is_stored_or_nothing :
  forall W S s aid name idx url,
    let r := IBossScraper.get_agency_detail W S s aid name idx url in
    match snd r with
    | None =>
        IBossScraper.db (fst r) = IBossScraper.db s
        /\ IBossScraper.details_scraped (fst r)
           = IBossScraper.details_scraped s
    | Some d =>
        truthy url = true
        /\ IBossScraper.details_scraped (fst r)
           = IBossScraper.details_scraped s + 1
        /\ Forall2 (detailed_as aid d)
                   (Database.agencies (IBossScraper.db s))
                   (Database.agencies (IBossScraper.db (fst r)))
    end.
Proof.
  intros W S s aid name idx url. unfold IBossScraper.get_agency_detail.
  destruct url as [[|c u]|]; try (split; reflexivity).
  destruct (navigated _); [|split; reflexivity].
  destruct (IBossScraper.detail_desc_of _) as [[d|]|];
    try (split; reflexivity).
  cbv zeta. cbn [fst snd].
  split; [reflexivity|]. split; [reflexivity|].
  rewrite update_status_agencies.
  cbn [IBossScraper.db IBossScraper.set_details_scraped IBossScraper.put_db
       IBossScraper.navigate_to_url IBossScraper.log].
  unfold Database.update_agency_detail. simpl.
  induction (Database.agencies (IBossScraper.db s)) as [|row l IH];
    simpl; constructor; [|exact IH].
  unfold detailed_as.
  destruct (Z.eqb_spec (Database.a_id row) aid) as [E|E];
    [|reflexivity].
  simpl. auto.
Qed.

(** *** What [get_agencies_in_category] returns *)

Section Returned.
Import IBossScraper.
Variables (W : world) (S : site) (C : config) (cid : Z) (cname : pystr).

Lemma agency_on_file_agencies d d' a :
  Database.agencies d' = Database.agencies d ->
  agency_on_file d cid a -> agency_on_file d' cid a.
Proof. intros E [r H]. exists r. rewrite E. exact H. Qed.

Lemma agency_on_file_insert d now x a :
  agency_on_file d cid a ->
  agency_on_file
    (fst (Database.insert_agency d now cid cname (x_agency_name x)
            (x_agency_url x) (x_agency_logo x) (x_agency_desc x)
            (x_agency_idx x) (x_agency_detail_url x)
            (x_local_logo_path x))) cid a.
Proof.
  intros [r [Hin [Hid [Hc Hn]]]].
  unfold agency_on_file, Database.insert_agency.
  destruct (find _ (Database.agencies d)) as [e|]; simpl.
  - exists (if Database.a_id r =? Database.a_id e
            then Database.refresh now (x_agency_url x) (x_agency_logo x)
                                  (x_local_logo_path x) (x_agency_desc x)
                                  (x_agency_idx x) (x_agency_detail_url x) r
            else r).
    split.
    + apply (in_map
               (fun r => if Database.a_id r =? Database.a_id e
                         then Database.refresh now (x_agency_url x)
                                (x_agency_logo x) (x_local_logo_path x)
                                (x_agency_desc x) (x_agency_idx x)
                                (x_agency_detail_url x) r
                         else r)).
      exact Hin.
    + destruct (Database.a_id r =? Database.a_id e); auto.
  - exists r. split; [apply in_or_app; left; exact Hin|auto].
Qed.

Lemma agency_on_file_inserted d now x :
  agency_on_file
    (fst (Database.insert_agency d now cid cname (x_agency_name x)
            (x_agency_url x) (x_agency_logo x) (x_agency_desc x)
            (x_agency_idx x) (x_agency_detail_url x)
            (x_local_logo_path x))) cid
    (snd (Database.insert_agency d now cid cname (x_agency_name x)
            (x_agency_url x) (x_agency_logo x) (x_agency_desc x)
            (x_agency_idx x) (x_agency_detail_url x)
            (x_local_logo_path x)), x).
Proof.
  unfold agency_on_file, Database.insert_agency.
  destruct (find _ (Database.agencies d)) as [e|] eqn:F; simpl.
  - apply find_some in F. destruct F as [Hin Hkey].
    apply andb_true_iff in Hkey. destruct Hkey as [Hc Hn].
    apply Z.eqb_eq in Hc. apply pystr_eqb_eq in Hn.
    eexists. split.
    + apply in_map_iff. exists e. rewrite Z.eqb_refl. auto.
    + simpl. auto.
  - eexists. split; [apply in_or_app; right; left; reflexivity|].
    simpl. auto.
Qed.

Lemma persist_on_file x s data :
  Forall (agency_on_file (db s) cid) data ->
  Forall (agency_on_file (db (fst (persist W cid cname x s))) cid)
         (data ++ [(snd (persist W cid cname x s), x)]).
Proof.
  intro H. unfold persist.
  pose proof (agency_on_file_inserted (db s) (now W s) x) as Hnew.
  assert (Hold : forall a,
             agency_on_file (db s) cid a ->
             agency_on_file
               (fst (Database.insert_agency (db s) (now W s) cid cname
                       (x_agency_name x) (x_agency_url x) (x_agency_logo x)
                       (x_agency_desc x) (x_agency_idx x)
                       (x_agency_detail_url x) (x_local_logo_path x))) cid a)
    by (intro a; apply agency_on_file_insert).
  destruct (Database.insert_agency _ _ _ _ _ _ _ _ _ _ _) as [d aid].
  cbn [fst snd] in *.
  apply Forall_app. split.
  - eapply Forall_impl; [|exact H]. intros a Ha.
    eapply agency_on_file_agencies; [apply update_status_agencies|].
    apply Hold. exact Ha.
  - constructor; [|constructor].
    eapply agency_on_file_agencies; [apply update_status_agencies|].
    exact Hnew.
Qed.

Lemma for_agencies_on_file els :
  forall s k data,
    Forall (agency_on_file (db s) cid) data ->
    let r := for_agencies W C cid cname els s k data in
    Forall (agency_on_file (db (fst (fst r))) cid) (snd r).
Proof.
  induction els as [|a rest IH]; intros s k data H; simpl; [exact H|].
  destruct (cap_reached C k); [exact H|].
  destruct (extract W cname a) as [[x|]|]; try (apply IH; exact H).
  pose proof (persist_on_file x s data H) as Hp.
  destruct (persist W cid cname x s) as [s' aid].
  apply IH. exact Hp.
Qed.

Lemma while_pages_on_file l :
  forall s k data,
    Forall (agency_on_file (db s) cid) data ->
    let r := while_pages W C cid cname l s k data in
    Forall (agency_on_file (db (fst (fst r))) cid) (snd (fst r)).
Proof.
  induction l as [p a|p a|p a l IH] using listing_induction;
    intros s k data H; simpl;
    (destruct (elements_of p a) as [els|]; [|exact H]);
    pose proof (for_agencies_on_file els s k data H) as Hf;
    destruct (for_agencies W C cid cname els s k data) as [[s' k'] data'];
    cbn [fst snd] in Hf; destruct (cap_reached C k'); try exact Hf.
  apply IH. exact Hf.
Qed.

End Returned.

(** X20 -- What [get_agencies_in_category] returns.  Every pair of the
    list it returns is on file: the store it leaves holds an agency
    row with the pair's id, in the category asked for and under the
    name read off the entry. *)
Theorem returned_agencies_are_on_file :
  forall W S C s cid cname curl,
    let r := IBossScraper.get_agencies_in_category W S C s cid cname curl in
    Forall (agency_on_file (IBossScraper.db (fst r)) cid) (snd r).
Proof.
  intros W S C s cid cname curl.
  unfold IBossScraper.get_agencies_in_category.
  pose proof (while_pages_on_file W C cid cname
                (listing_of S (IBossScraper.absolute curl))
                (IBossScraper.navigate_to_url s curl) 0 []
                (Forall_nil _)) as H.
  destruct (IBossScraper.while_pages W C cid cname
              (listing_of S (IBossScraper.absolute curl))
              (IBossScraper.navigate_to_url s curl) 0 [])
    as [[s' data] [|]]; cbn [fst snd] in *; [|constructor].
  eapply Forall_impl; [|exact H]. intros a Ha.
  eapply agency_on_file_agencies; [|exact Ha].
  rewrite update_status_agencies. reflexivity.
Qed.
